(** * A shallow embedding of the Coinut REST client (coinut_api.py)

    The client is a Python 2 class [CoinutAPI].  Every public method
    builds a dict and hands it to [request], which stamps it with the
    method name and a random nonce, serialises it with [json.dumps],
    signs the serialised text with HMAC-SHA256 and posts it.

    Modelling choices, in the order of the file:
    - the Python values that reach [json.dumps] are [pyval]: None,
      bool, int, str, list and dict, the types that the docstrings give
      to the arguments; a dict is an association list in insertion
      order with Python's update rule (an existing key keeps its place,
      a new key goes last);
    - text is a [string] of code points below 256; [json.dumps] (with
      its default [ensure_ascii]) escapes everything outside printable
      ASCII, so the serialised body is plain ASCII and is its own byte
      string;
    - [qty] and [price] are binary64 floats ([spec_float]); the format
      %.8f rounds the exact binary value half-to-even;
    - SHA-256 and HMAC are written out on 32-bit words held in [Z];
    - the interpreter state is a record [World]: the heap of the dict
      objects that [request] may write into (so that the aliasing of
      the default argument is visible), the random source, the log of
      the posted requests and the remote server;
    - a method is a function [World -> outcome A * World]: it returns
      or raises, and leaves a new state. *)

From Stdlib Require Import ZArith NArith List String Ascii Bool Lia QArith Qabs.
From Stdlib Require Import SpecFloat.
Import ListNotations.

Open Scope string_scope.
Open Scope Z_scope.

(** ** Python values *)

#[warnings="-register-all"]
Inductive pyval : Type :=
| VNone
| VBool (b : bool)
| VInt (z : Z)
| VStr (s : string)
| VList (l : list pyval)
| VDict (d : list (string * pyval)).

Definition dict : Type := list (string * pyval).

(** [d[k]], the lookup behind [d[k]] and [k in d]. *)
Fixpoint dict_get (k : string) (d : dict) : option pyval :=
  match d with
  | [] => None
  | (k', v) :: d' => if String.eqb k k' then Some v else dict_get k d'
  end.

(** [d[k] = v]: an existing key is overwritten where it stands, a new
    key is appended. *)
Fixpoint dict_set (k : string) (v : pyval) (d : dict) : dict :=
  match d with
  | [] => [(k, v)]
  | (k', v') :: d' =>
      if String.eqb k k' then (k, v) :: d' else (k', v') :: dict_set k v d'
  end.

Definition dict_keys (d : dict) : list string := map fst d.

(** Number of entries of [d] stored under key [k]. *)
Definition count_key (k : string) (d : dict) : nat :=
  List.length (filter (String.eqb k) (dict_keys d)).

(** A Python dict never holds a key twice. *)
Definition dict_wf (d : dict) : Prop := NoDup (dict_keys d).

(** ** Characters and decimal numerals *)

Definition dquote : ascii := ascii_of_N 34.
Definition backslash : ascii := ascii_of_N 92.

Definition str1 (c : ascii) : string := String c EmptyString.

Definition digit_char (d : Z) : ascii := ascii_of_N (48 + Z.to_N d).
Definition digit_val (c : ascii) : Z := Z.of_N (N_of_ascii c) - 48.

(** The decimal digits of [n], most significant first; [fuel] bounds
    their number. *)
Fixpoint digits_of (fuel : nat) (n : Z) : string :=
  match fuel with
  | O => EmptyString
  | S fuel' =>
      if n <? 10 then str1 (digit_char n)
      else digits_of fuel' (n / 10) ++ str1 (digit_char (n mod 10))
  end.

Definition str_of_nonneg (n : Z) : string := digits_of (S (Z.to_nat (Z.log2 n))) n.

(** [str(z)] for a Python int. *)
Definition str_of_Z (z : Z) : string :=
  if z <? 0 then String (ascii_of_N 45) (str_of_nonneg (- z)) else str_of_nonneg z.

(** The number that a string of digits denotes. *)
Fixpoint horner (acc : Z) (s : string) : Z :=
  match s with
  | EmptyString => acc
  | String c s' => horner (acc * 10 + digit_val c) s'
  end.

Definition hex_digit (n : N) : ascii :=
  if (n <? 10)%N then ascii_of_N (48 + n) else ascii_of_N (87 + n).

(** Two lowercase hexadecimal digits of a byte. *)
Definition hex2 (n : N) : string :=
  String (hex_digit (n / 16)) (String (hex_digit (n mod 16)) EmptyString).

(** ** json.dumps

    [json.encoder.py_encode_basestring_ascii]: the pattern ESCAPE_ASCII
    selects the backslash, the double quote and every character outside
    the range from space to tilde; ESCAPE_DCT gives the short escapes
    and everything else becomes a backslash, u and four hex digits. *)

Definition escape_char (c : ascii) : string :=
  let n := N_of_ascii c in
  if (n =? 34)%N then String backslash (str1 dquote)
  else if (n =? 92)%N then String backslash (str1 backslash)
  else if (n =? 8)%N then String backslash "b"
  else if (n =? 12)%N then String backslash "f"
  else if (n =? 10)%N then String backslash "n"
  else if (n =? 13)%N then String backslash "r"
  else if (n =? 9)%N then String backslash "t"
  else if ((32 <=? n) && (n <=? 126))%N then str1 c
  else String backslash ("u00" ++ hex2 n).

Fixpoint escape (s : string) : string :=
  match s with
  | EmptyString => EmptyString
  | String c s' => escape_char c ++ escape s'
  end.

Definition encode_basestring_ascii (s : string) : string :=
  String dquote (escape s ++ str1 dquote).

(** [json.dumps] with its defaults: separators [", "] and [": "], no
    indentation, keys in the dict's own order. *)
Fixpoint dumps (v : pyval) : string :=
  match v with
  | VNone => "null"
  | VBool true => "true"
  | VBool false => "false"
  | VInt z => str_of_Z z
  | VStr s => encode_basestring_ascii s
  | VList l => "[" ++ String.concat ", " (map dumps l) ++ "]"
  | VDict d =>
      "{" ++ String.concat ", "
               (map (fun kv => encode_basestring_ascii (fst kv) ++ ": " ++ dumps (snd kv)) d)
          ++ "}"
  end.

(** ** Reading JSON text (RFC 8259)

    The reader decides what "valid JSON" means for a request body.  It
    accepts the RFC's grammar restricted to integers without fraction
    or exponent, and returns the value the text denotes together with
    the unread rest.  A string is returned with one character for each
    code point below 256; an escape that names a code point from 256 on
    is accepted and read as a question mark, the way
    [encode('latin-1', 'replace')] writes it. *)

Definition is_ws (c : ascii) : bool :=
  let n := N_of_ascii c in
  ((n =? 32) || (n =? 9) || (n =? 10) || (n =? 13))%N.

Fixpoint skip_ws (s : string) : string :=
  match s with
  | String c s' => if is_ws c then skip_ws s' else s
  | EmptyString => s
  end.

Definition is_digit (c : ascii) : bool :=
  let n := N_of_ascii c in ((48 <=? n) && (n <=? 57))%N.

Fixpoint span_digits (s : string) : string * string :=
  match s with
  | String c s' =>
      if is_digit c then let (ds, r) := span_digits s' in (String c ds, r)
      else (EmptyString, s)
  | EmptyString => (EmptyString, EmptyString)
  end.

Definition hex_val (c : ascii) : option N :=
  let n := N_of_ascii c in
  if ((48 <=? n) && (n <=? 57))%N then Some (n - 48)%N
  else if ((97 <=? n) && (n <=? 102))%N then Some (n - 87)%N
  else if ((65 <=? n) && (n <=? 70))%N then Some (n - 55)%N
  else None.

Definition hex4_val (a b c d : ascii) : option N :=
  match hex_val a, hex_val b, hex_val c, hex_val d with
  | Some x, Some y, Some z, Some w => Some (((x * 16 + y) * 16 + z) * 16 + w)%N
  | _, _, _, _ => None
  end.

Definition cons_char (c : ascii) (r : option (string * string)) : option (string * string) :=
  match r with
  | Some (t, rest) => Some (String c t, rest)
  | None => None
  end.

(** The characters after an opening quote, up to the closing one. *)
Fixpoint read_string_body (s : string) : option (string * string) :=
  match s with
  | EmptyString => None
  | String c s' =>
      if Ascii.eqb c dquote then Some (EmptyString, s')
      else if Ascii.eqb c backslash then
        match s' with
        | EmptyString => None
        | String e s'' =>
            let n := N_of_ascii e in
            if (n =? 34)%N then cons_char dquote (read_string_body s'')
            else if (n =? 92)%N then cons_char backslash (read_string_body s'')
            else if (n =? 47)%N then cons_char (ascii_of_N 47) (read_string_body s'')
            else if (n =? 98)%N then cons_char (ascii_of_N 8) (read_string_body s'')
            else if (n =? 102)%N then cons_char (ascii_of_N 12) (read_string_body s'')
            else if (n =? 110)%N then cons_char (ascii_of_N 10) (read_string_body s'')
            else if (n =? 114)%N then cons_char (ascii_of_N 13) (read_string_body s'')
            else if (n =? 116)%N then cons_char (ascii_of_N 9) (read_string_body s'')
            else if (n =? 117)%N then
              match s'' with
              | String h1 (String h2 (String h3 (String h4 s5))) =>
                  match hex4_val h1 h2 h3 h4 with
                  | Some u =>
                      if (u <? 256)%N then cons_char (ascii_of_N u) (read_string_body s5)
                      else cons_char (ascii_of_N 63) (read_string_body s5)
                  | None => None
                  end
              | _ => None
              end
            else None
        end
      else if (N_of_ascii c <? 32)%N then None
      else cons_char c (read_string_body s')
  end.

(** An unsigned integer without a superfluous leading zero. *)
Definition read_nat_digits (s : string) : option (Z * string) :=
  let (ds, rest) := span_digits s in
  match ds with
  | EmptyString => None
  | String c ds' =>
      if Ascii.eqb c (ascii_of_N 48) && negb (String.eqb ds' EmptyString) then None
      else Some (horner 0 ds, rest)
  end.

(** The literal [lit] at the head of [s]; what follows it. *)
Fixpoint expect (lit : string) (s : string) : option string :=
  match lit with
  | EmptyString => Some s
  | String c lit' =>
      match s with
      | String c' s' => if Ascii.eqb c c' then expect lit' s' else None
      | EmptyString => None
      end
  end.

Fixpoint read_value (fuel : nat) (s : string) : option (pyval * string) :=
  match fuel with
  | O => None
  | S fuel' =>
      match skip_ws s with
      | EmptyString => None
      | String c rest =>
          let n := N_of_ascii c in
          if (n =? 110)%N then option_map (fun r => (VNone, r)) (expect "ull" rest)
          else if (n =? 116)%N then option_map (fun r => (VBool true, r)) (expect "rue" rest)
          else if (n =? 102)%N then option_map (fun r => (VBool false, r)) (expect "alse" rest)
          else if (n =? 34)%N then
            option_map (fun tr => (VStr (fst tr), snd tr)) (read_string_body rest)
          else if (n =? 45)%N then
            option_map (fun nr => (VInt (- fst nr), snd nr)) (read_nat_digits rest)
          else if is_digit c then
            option_map (fun nr => (VInt (fst nr), snd nr)) (read_nat_digits (String c rest))
          else if (n =? 91)%N then
            match skip_ws rest with
            | String c' rest' =>
                if (N_of_ascii c' =? 93)%N then Some (VList [], rest')
                else option_map (fun lr => (VList (fst lr), snd lr)) (read_elems fuel' rest)
            | EmptyString => None
            end
          else if (n =? 123)%N then
            match skip_ws rest with
            | String c' rest' =>
                if (N_of_ascii c' =? 125)%N then Some (VDict [], rest')
                else option_map (fun dr => (VDict (fst dr), snd dr)) (read_members fuel' rest)
            | EmptyString => None
            end
          else None
      end
  end

(** One or more values separated by commas, then the closing bracket. *)
with read_elems (fuel : nat) (s : string) : option (list pyval * string) :=
  match fuel with
  | O => None
  | S fuel' =>
      match read_value fuel' s with
      | None => None
      | Some (v, r) =>
          match skip_ws r with
          | String c r' =>
              if (N_of_ascii c =? 93)%N then Some ([v], r')
              else if (N_of_ascii c =? 44)%N then
                option_map (fun lr => (v :: fst lr, snd lr)) (read_elems fuel' r')
              else None
          | EmptyString => None
          end
      end
  end

(** One or more [key: value] members, then the closing brace. *)
with read_members (fuel : nat) (s : string) : option (dict * string) :=
  match fuel with
  | O => None
  | S fuel' =>
      match skip_ws s with
      | String q s1 =>
          if (N_of_ascii q =? 34)%N then
            match read_string_body s1 with
            | None => None
            | Some (k, s2) =>
                match skip_ws s2 with
                | String c s3 =>
                    if (N_of_ascii c =? 58)%N then
                      match read_value fuel' s3 with
                      | None => None
                      | Some (v, r) =>
                          match skip_ws r with
                          | String c' r' =>
                              if (N_of_ascii c' =? 125)%N then Some ([(k, v)], r')
                              else if (N_of_ascii c' =? 44)%N then
                                option_map (fun dr => ((k, v) :: fst dr, snd dr))
                                           (read_members fuel' r')
                              else None
                          | EmptyString => None
                          end
                      end
                    else None
                | EmptyString => None
                end
            end
          else None
      | EmptyString => None
      end
  end.

(** [json_loads s] is the value of the JSON text [s], if [s] is one:
    a single value, then at most white space. *)
Definition json_loads (s : string) : option pyval :=
  match read_value (S (String.length s)) s with
  | Some (v, rest) =>
      match skip_ws rest with
      | EmptyString => Some v
      | String _ _ => None
      end
  | None => None
  end.

Definition valid_json (s : string) : Prop := exists v, json_loads s = Some v.

(** ** SHA-256 (FIPS 180-4) on bytes and 32-bit words held in [Z] *)

(** [ord(c)] and the bytes of a [str]. *)
Definition ord (c : ascii) : Z := Z.of_N (N_of_ascii c).
Definition bytes_of_string (s : string) : list Z := map ord (list_ascii_of_string s).

Definition w32 (x : Z) : Z := Z.land x 0xffffffff.
Definition add32 (x y : Z) : Z := w32 (x + y).
Definition rotr (n x : Z) : Z := Z.lor (Z.shiftr x n) (w32 (Z.shiftl x (32 - n))).
Definition not32 (x : Z) : Z := Z.lxor x 0xffffffff.

Definition Ch (x y z : Z) : Z := Z.lxor (Z.land x y) (Z.land (not32 x) z).
Definition Maj (x y z : Z) : Z := Z.lxor (Z.lxor (Z.land x y) (Z.land x z)) (Z.land y z).
Definition Sigma0 (x : Z) : Z := Z.lxor (Z.lxor (rotr 2 x) (rotr 13 x)) (rotr 22 x).
Definition Sigma1 (x : Z) : Z := Z.lxor (Z.lxor (rotr 6 x) (rotr 11 x)) (rotr 25 x).
Definition sigma0 (x : Z) : Z := Z.lxor (Z.lxor (rotr 7 x) (rotr 18 x)) (Z.shiftr x 3).
Definition sigma1 (x : Z) : Z := Z.lxor (Z.lxor (rotr 17 x) (rotr 19 x)) (Z.shiftr x 10).

(** The constants are defined as FIPS 180-4 defines them: the first 32
    bits of the fractional parts of the cube roots (for [K256]) and of
    the square roots (for [H256]) of the first primes. *)

Definition is_prime (p : nat) : bool :=
  forallb (fun d => negb (Nat.eqb (Nat.modulo p d) 0)) (seq 2 (p - 2)).

Definition primes64 : list Z := map Z.of_nat (filter is_prime (seq 2 310)).

(** The integer cube root, one bit at a time from bit [k - 1] down. *)
Fixpoint icbrt_bits (k : nat) (n r : Z) : Z :=
  match k with
  | O => r
  | S k' =>
      let r' := r + 2 ^ Z.of_nat k' in
      icbrt_bits k' n (if r' * r' * r' <=? n then r' else r)
  end.

Definition icbrt (n : Z) : Z := icbrt_bits 40 n 0.

Definition K256 : list Z :=
  Eval vm_compute in map (fun p => w32 (icbrt (p * 2 ^ 96))) primes64.

Definition H256 : list Z :=
  Eval vm_compute in map (fun p => w32 (Z.sqrt (p * 2 ^ 64))) (firstn 8 primes64).

(** Big-endian bytes of a number, [n] of them. *)
Fixpoint be_bytes (n : nat) (x : Z) : list Z :=
  match n with
  | O => []
  | S n' => be_bytes n' (Z.shiftr x 8) ++ [Z.land x 0xff]
  end.

Definition be_word (bs : list Z) : Z := fold_left (fun acc b => acc * 256 + b) bs 0.

(** The message, a 1 bit, zeros up to 56 modulo 64, the bit length. *)
Definition sha_pad (msg : list Z) : list Z :=
  let len := Z.of_nat (List.length msg) in
  let zeros := Z.to_nat ((55 - len) mod 64) in
  msg ++ [0x80] ++ repeat 0 zeros ++ be_bytes 8 (8 * len).

Fixpoint chunks (fuel : nat) (n : nat) {A : Type} (l : list A) : list (list A) :=
  match fuel with
  | O => []
  | S fuel' =>
      match l with
      | [] => []
      | _ :: _ => firstn n l :: chunks fuel' n (skipn n l)
      end
  end.

(** The message schedule.  [recent] holds the words so far, newest first. *)
Fixpoint schedule (n : nat) (recent : list Z) : list Z :=
  match n with
  | O => rev recent
  | S n' =>
      let w := add32 (add32 (sigma1 (nth 1 recent 0)) (nth 6 recent 0))
                     (add32 (sigma0 (nth 14 recent 0)) (nth 15 recent 0)) in
      schedule n' (w :: recent)
  end.

Definition sha_round (st : list Z) (kw : Z * Z) : list Z :=
  match st with
  | [a; b; c; d; e; f; g; h] =>
      let t1 := add32 (add32 (add32 h (Sigma1 e)) (add32 (Ch e f g) (fst kw))) (snd kw) in
      let t2 := add32 (Sigma0 a) (Maj a b c) in
      [add32 t1 t2; a; b; c; add32 d t1; e; f; g]
  | _ => st
  end.

Definition sha_block (st : list Z) (block : list Z) : list Z :=
  let w16 := map be_word (chunks 16 4 block) in
  let w := schedule 48 (rev w16) in
  let st' := fold_left sha_round (combine K256 w) st in
  map (fun p => add32 (fst p) (snd p)) (combine st st').

Definition sha256 (msg : list Z) : list Z :=
  let padded := sha_pad msg in
  let blocks := chunks (List.length padded) 64 padded in
  flat_map (be_bytes 4) (fold_left sha_block blocks H256).

(** ** hmac.new(key, msg, hashlib.sha256).hexdigest()

    [hmac.HMAC.__init__]: a key longer than the block size is hashed,
    the key is padded with zero bytes to the block size, and translated
    with the tables [trans_5C] and [trans_36]. *)

Definition blocksize : nat := 64.

Definition hmac_key (key : list Z) : list Z :=
  let key := if Nat.ltb blocksize (List.length key) then sha256 key else key in
  key ++ repeat 0 (blocksize - List.length key).

Definition hmac_sha256 (key msg : list Z) : list Z :=
  let k := hmac_key key in
  let inner := sha256 (map (Z.lxor 0x36) k ++ msg) in
  sha256 (map (Z.lxor 0x5c) k ++ inner).

Definition hexlify (bs : list Z) : string :=
  String.concat "" (map (fun b => hex2 (Z.to_N b)) bs).

Definition hmac_hexdigest (key msg : string) : string :=
  hexlify (hmac_sha256 (bytes_of_string key) (bytes_of_string msg)).


Fixpoint string_forallb (p : ascii -> bool) (s : string) : bool :=
  match s with
  | EmptyString => true
  | String c s' => p c && string_forallb p s'
  end.

(** ** The format "%.8f"

    [qty] and [price] are binary64 floats.  A finite float is
    [(-1)^s * m * 2^e]; the conversion [f] with precision 8 prints its
    exact value rounded to a multiple of [10^-8], ties to even, sign
    first (also for a negative zero), never with an exponent.  Infinities
    and NaN print as [inf], [-inf] and [nan]. *)

Definition binary64 (x : spec_float) : bool := valid_binary 53 1024 x.

(** [p / q] rounded to the nearest integer, ties to even ([0 < q]). *)
Definition round_half_even (p q : Z) : Z :=
  let n := p / q in
  match 2 * (p mod q) ?= q with
  | Lt => n
  | Gt => n + 1
  | Eq => if Z.even n then n else n + 1
  end.

(** [m * 2^e * 10^8], rounded. *)
Definition scaled8 (m : positive) (e : Z) : Z :=
  if 0 <=? e then Zpos m * 2 ^ e * 10 ^ 8
  else round_half_even (Zpos m * 10 ^ 8) (2 ^ (- e)).

(** The last [w] decimal digits of [r], most significant first. *)
Fixpoint fixed_digits (w : nat) (r : Z) : string :=
  match w with
  | O => EmptyString
  | S w' => fixed_digits w' (r / 10) ++ str1 (digit_char (r mod 10))
  end.

Definition sign_text (neg : bool) : string := if neg then "-" else "".

Definition fixed8 (neg : bool) (n : Z) : string :=
  sign_text neg ++ str_of_nonneg (n / 10 ^ 8) ++ "." ++ fixed_digits 8 (n mod 10 ^ 8).

Definition format_8f (x : spec_float) : string :=
  match x with
  | S754_zero s => fixed8 s 0
  | S754_infinity s => if s then "-inf" else "inf"
  | S754_nan => "nan"
  | S754_finite s m e => fixed8 s (scaled8 m e)
  end.

Definition is_finite (x : spec_float) : bool :=
  match x with
  | S754_zero _ | S754_finite _ _ _ => true
  | _ => false
  end.

(** The exact value of a finite float (0 for the others). *)
Definition float_value (x : spec_float) : Q :=
  match x with
  | S754_finite s m e =>
      let a := if 0 <=? e then Qmake (Zpos m * 2 ^ e) 1
               else Qmake (Zpos m) (Z.to_pos (2 ^ (- e))) in
      if s then Qopp a else a
  | _ => 0%Q
  end.

(** Reading a decimal numeral [-?digits.digits] as the rational it
    denotes. *)
Definition parse_unsigned_decimal (s : string) : option Q :=
  let (ip, r) := span_digits s in
  match ip, r with
  | String _ _, String dot fp =>
      if (N_of_ascii dot =? 46)%N then
        let (fd, r') := span_digits fp in
        match fd, r' with
        | String _ _, EmptyString =>
            let scale := 10 ^ Z.of_nat (String.length fd) in
            Some (Qmake (horner 0 ip * scale + horner 0 fd) (Z.to_pos scale))
        | _, _ => None
        end
      else None
  | _, _ => None
  end.

Definition parse_decimal (s : string) : option Q :=
  match s with
  | String c s' =>
      if (N_of_ascii c =? 45)%N then option_map Qopp (parse_unsigned_decimal s')
      else parse_unsigned_decimal s
  | EmptyString => None
  end.

(** The shape [-?d+.dddddddd]: an optional sign, at least one digit, a
    point and exactly [k] digits. *)
Definition strip_sign (s : string) : string :=
  match s with
  | String c s' => if (N_of_ascii c =? 45)%N then s' else s
  | EmptyString => s
  end.

Definition fixed_point_shape (k : nat) (s : string) : bool :=
  let (ip, r) := span_digits (strip_sign s) in
  match ip, r with
  | String _ _, String dot fp =>
      (N_of_ascii dot =? 46)%N && string_forallb is_digit fp && Nat.eqb (String.length fp) k
  | _, _ => false
  end.

(** Float literals of the examples, as the nearest binary64. *)
Definition f_1e_7 : spec_float := S754_finite false 0x1ad7f29abcaf48 (-76).
Definition f_0_013 : spec_float := S754_finite false 7493989779944505 (-59).
Definition f_1e_9 : spec_float := S754_finite false 4835703278458517 (-82).
Definition f_1_25 : spec_float := S754_finite false 0x14000000000000 (-52).

(** ** The interpreter state *)

Inductive exn : Type :=
| KeyError
| IndexError
| TypeError
| RequestException   (* requests: connection refused, timeout, TLS *)
| ValueError         (* response.json() on a body that is not JSON *)
| UnicodeDecodeError.  (* json.dumps on a str that is not UTF-8 *)

Inductive outcome (A : Type) : Type :=
| Return (a : A)
| Raise (e : exn).
Arguments Return {A} a.
Arguments Raise {A} e.

Record http_request : Type := mk_request {
  req_url : string;
  req_headers : list (string * string);
  req_data : string;
  req_timeout : Z
}.

(** What the remote end does with a request. *)
Inductive reply : Type :=
| ReplyJson (v : pyval)   (* a body that [response.json()] parses *)
| ReplyGarbage            (* a body that is not JSON *)
| NoReply.                (* the transport fails or times out *)

(** A reference to a dict object: its index in the heap. *)
Definition loc : Type := nat.

Record World : Type := mk_world {
  heap : list dict;          (* the dict objects that [request] may touch *)
  entropy : nat -> Z;        (* the raw output of the random generator *)
  draws : nat;               (* how many raw values were consumed *)
  sent : list http_request;  (* the requests posted so far, oldest first *)
  server : list http_request -> reply
                             (* the reply to the last of the requests posted *)
}.

Definition M (A : Type) : Type := World -> outcome A * World.

Definition ret {A : Type} (a : A) : M A := fun w => (Return a, w).
Definition raise {A : Type} (e : exn) : M A := fun w => (Raise e, w).
Definition bind {A B : Type} (m : M A) (f : A -> M B) : M B :=
  fun w =>
    match m w with
    | (Return a, w') => f a w'
    | (Raise e, w') => (Raise e, w')
    end.

Notation "x <- m ;; k" := (bind m (fun x => k))
  (at level 61, m at next level, right associativity).
Notation "m ;;; k" := (bind m (fun _ => k))
  (at level 61, right associativity).

(** [random.randint(a, b)]: an integer [N] with [a <= N <= b], taken
    from the next raw value of the generator. *)
Definition randint_of (a b raw : Z) : Z := a + raw mod (b - a + 1).

Definition randint (a b : Z) : M Z :=
  fun w =>
    (Return (randint_of a b (entropy w (draws w))),
     mk_world (heap w) (entropy w) (S (draws w)) (sent w) (server w)).

(** A dict display [{...}] creates a new object. *)
Definition new_dict (d : dict) : M loc :=
  fun w =>
    (Return (List.length (heap w)),
     mk_world (heap w ++ [d]) (entropy w) (draws w) (sent w) (server w)).

Definition deref (l : loc) (w : World) : dict := nth l (heap w) [].

Fixpoint list_update {A : Type} (n : nat) (f : A -> A) (l : list A) : list A :=
  match l, n with
  | [], _ => []
  | x :: l', O => f x :: l'
  | x :: l', S n' => x :: list_update n' f l'
  end.

(** [obj[k] = v] on the dict object at [l]. *)
Definition dict_setitem (l : loc) (k : string) (v : pyval) : M unit :=
  fun w =>
    (Return tt,
     mk_world (list_update l (dict_set k v) (heap w)) (entropy w) (draws w) (sent w) (server w)).

Definition read_dict (l : loc) : M dict := fun w => (Return (deref l w), w).

(** [v[k]] with a string key. *)
Definition getitem (v : pyval) (k : string) : M pyval :=
  match v with
  | VDict d =>
      match dict_get k d with
      | Some x => ret x
      | None => raise KeyError
      end
  | _ => raise TypeError
  end.

(** [v[0]]. *)
Definition getitem0 (v : pyval) : M pyval :=
  match v with
  | VList (x :: _) => ret x
  | VList [] => raise IndexError
  | VStr (String c _) => ret (VStr (str1 c))
  | VStr EmptyString => raise IndexError
  | VDict _ => raise KeyError   (* the keys of a JSON object are strings *)
  | _ => raise TypeError
  end.

(** [requests.post(url, headers=..., data=..., timeout=...)] followed
    by [response.json()]. *)
Definition requests_post_json (url : string) (headers : list (string * string))
    (data : string) (timeout : Z) : M pyval :=
  fun w =>
    let log := (sent w ++ [mk_request url headers data timeout])%list in
    let w' := mk_world (heap w) (entropy w) (draws w) log (server w) in
    match server w log with
    | ReplyJson v => (Return v, w')
    | ReplyGarbage => (Raise ValueError, w')
    | NoReply => (Raise RequestException, w')
    end.

(** ** class CoinutAPI *)

Record CoinutAPI : Type := mk_client {
  user : option string;
  api_key : option string
}.

(** The dict object that is the default value of [content] in
    [def request(self, api, content = {})]: it is created once, when
    the [def] is executed, and is the first object of the heap. *)
Definition default_content : loc := 0%nat.

Definition initial_world (rnd : nat -> Z) (srv : list http_request -> reply) : World :=
  mk_world [ [] ] rnd 0 [] srv.

Definition nonce_max : Z := 4294967290.

Definition request (self : CoinutAPI) (api : string) (content : option loc) : M pyval :=
  let content := match content with Some l => l | None => default_content end in
  let url := "https://api.coinut.com" in
  dict_setitem content "request" (VStr api) ;;;
  n <- randint 1 nonce_max ;;
  dict_setitem content "nonce" (VInt n) ;;;
  d <- read_dict content ;;
  let content := dumps (VDict d) in
  let headers :=
    match api_key self, user self with
    | Some key, Some u => [("X-USER", u); ("X-SIGNATURE", hmac_hexdigest key content)]
    | _, _ => []
    end in
  requests_post_json url headers content 5.

Definition get_balance (self : CoinutAPI) : M pyval :=
  request self "user_balance" None.

Definition get_spot_instruments (self : CoinutAPI) (pair : option string) : M pyval :=
  c <- new_dict [("sec_type", VStr "SPOT")] ;;
  result <- request self "inst_list" (Some c) ;;
  match pair with
  | Some p =>
      spot <- getitem result "SPOT" ;;
      insts <- getitem spot p ;;
      getitem0 insts
  | None => getitem result "SPOT"
  end.

Definition get_spot_inst_id (self : CoinutAPI) (pair : string) : M pyval :=
  inst <- get_spot_instruments self (Some pair) ;;
  getitem inst "inst_id".

Definition get_inst_tick (self : CoinutAPI) (inst_id : pyval) : M pyval :=
  c <- new_dict [("inst_id", inst_id)] ;;
  request self "inst_tick" (Some c).

Definition get_orderbook (self : CoinutAPI) (inst_id : pyval) : M pyval :=
  c <- new_dict [("inst_id", inst_id)] ;;
  request self "inst_order_book" (Some c).

Definition get_open_orders (self : CoinutAPI) (inst_id : pyval) : M pyval :=
  c <- new_dict [("inst_id", inst_id)] ;;
  r <- request self "user_open_orders" (Some c) ;;
  getitem r "orders".

(** [client_ord_id] is [VNone] when the argument is left out (its
    default is [None]). *)
Definition create_new_order (self : CoinutAPI) (inst_id : pyval) (side : string)
    (qty : spec_float) (price : option spec_float) (client_ord_id : pyval) : M loc :=
  order <- new_dict [("inst_id", inst_id); ("side", VStr side); ("qty", VStr (format_8f qty))] ;;
  match price with
  | Some p => dict_setitem order "price" (VStr (format_8f p))
  | None => ret tt
  end ;;;
  match client_ord_id with
  | VNone =>
      n <- randint 1 nonce_max ;;
      dict_setitem order "client_ord_id" (VInt n)
  | _ => dict_setitem order "client_ord_id" client_ord_id
  end ;;;
  ret order.

Definition submit_new_order (self : CoinutAPI) (inst_id : pyval) (side : string)
    (qty : spec_float) (price : option spec_float) (client_ord_id : pyval) : M pyval :=
  order <- create_new_order self inst_id side qty price client_ord_id ;;
  request self "new_order" (Some order).

Definition submit_new_orders (self : CoinutAPI) (ords : list pyval) : M pyval :=
  c <- new_dict [("orders", VList ords)] ;;
  request self "new_orders" (Some c).

Definition cancel_order (self : CoinutAPI) (inst_id order_id : pyval) : M pyval :=
  c <- new_dict [("inst_id", inst_id); ("order_id", order_id)] ;;
  request self "cancel_order" (Some c).

Definition cancel_orders (self : CoinutAPI) (inst_id : pyval) (order_ids : list pyval) : M pyval :=
  let ords := map (fun x => VDict [("inst_id", inst_id); ("order_id", x)]) order_ids in
  c <- new_dict [("entries", VList ords)] ;;
  request self "cancel_orders" (Some c).

(** ** Calls on a client

    The public operations with their arguments, so that a property can
    be stated for every operation and for every sequence of calls. *)

Inductive call : Type :=
| GetBalance
| GetSpotInstruments (pair : option string)
| GetSpotInstId (pair : string)
| GetInstTick (inst_id : pyval)
| GetOrderbook (inst_id : pyval)
| GetOpenOrders (inst_id : pyval)
| CreateNewOrder (inst_id : pyval) (side : string) (qty : spec_float)
                 (price : option spec_float) (client_ord_id : pyval)
| SubmitNewOrder (inst_id : pyval) (side : string) (qty : spec_float)
                 (price : option spec_float) (client_ord_id : pyval)
| SubmitNewOrders (ords : list pyval)
| CancelOrder (inst_id order_id : pyval)
| CancelOrders (inst_id : pyval) (order_ids : list pyval).

Inductive result : Type :=
| Value (v : pyval)
| Ref (l : loc).

Definition as_value (m : M pyval) : M result := v <- m ;; ret (Value v).

Definition run_call (self : CoinutAPI) (c : call) : M result :=
  match c with
  | GetBalance => as_value (get_balance self)
  | GetSpotInstruments p => as_value (get_spot_instruments self p)
  | GetSpotInstId p => as_value (get_spot_inst_id self p)
  | GetInstTick i => as_value (get_inst_tick self i)
  | GetOrderbook i => as_value (get_orderbook self i)
  | GetOpenOrders i => as_value (get_open_orders self i)
  | CreateNewOrder i s q p c => l <- create_new_order self i s q p c ;; ret (Ref l)
  | SubmitNewOrder i s q p c => as_value (submit_new_order self i s q p c)
  | SubmitNewOrders ords => as_value (submit_new_orders self ords)
  | CancelOrder i o => as_value (cancel_order self i o)
  | CancelOrders i os => as_value (cancel_orders self i os)
  end.

(** The method name that an operation puts in its request, if it posts
    one. *)
Definition api_name (c : call) : option string :=
  match c with
  | GetBalance => Some "user_balance"
  | GetSpotInstruments _ | GetSpotInstId _ => Some "inst_list"
  | GetInstTick _ => Some "inst_tick"
  | GetOrderbook _ => Some "inst_order_book"
  | GetOpenOrders _ => Some "user_open_orders"
  | CreateNewOrder _ _ _ _ _ => None
  | SubmitNewOrder _ _ _ _ _ => Some "new_order"
  | SubmitNewOrders _ => Some "new_orders"
  | CancelOrder _ _ => Some "cancel_order"
  | CancelOrders _ _ => Some "cancel_orders"
  end.

(** The state after a sequence of calls; an exception raised by one
    call is caught by the caller, who goes on. *)
Fixpoint run_calls (self : CoinutAPI) (cs : list call) (w : World) : World :=
  match cs with
  | [] => w
  | c :: cs' => run_calls self cs' (snd (run_call self c w))
  end.

(** ** Vocabulary of the statements *)

Definition api_url : string := "https://api.coinut.com".

(** The dict object that [request] works on. *)
Definition target (content : option loc) : loc :=
  match content with
  | Some l => l
  | None => default_content
  end.

(** What the two assignments of [request] do to a dict. *)
Definition stamp (api : string) (n : Z) (d : dict) : dict :=
  dict_set "nonce" (VInt n) (dict_set "request" (VStr api) d).

(** The value of the next call of [random.randint(1, 4294967290)]. *)
Definition next_nonce (w : World) : Z := randint_of 1 nonce_max (entropy w (draws w)).

Definition outcome_of_reply (r : reply) : outcome pyval :=
  match r with
  | ReplyJson v => Return v
  | ReplyGarbage => Raise ValueError
  | NoReply => Raise RequestException
  end.

(** The reply to the request for the spot instruments: what
    [get_spot_instruments] binds to [result]. *)
Definition inst_list_response (self : CoinutAPI) (w : World) : outcome pyval :=
  fst ((c <- new_dict [("sec_type", VStr "SPOT")] ;; request self "inst_list" (Some c)) w).

(** The headers that go with a body, given the credentials. *)
Definition auth_headers (self : CoinutAPI) (body : string) : list (string * string) :=
  match api_key self, user self with
  | Some key, Some u => [("X-USER", u); ("X-SIGNATURE", hmac_hexdigest key body)]
  | _, _ => []
  end.

(** The request that [requests.post] sends for a body. *)
Definition posted (self : CoinutAPI) (body : string) : http_request :=
  mk_request api_url (auth_headers self body) body 5.

(** The order that [create_new_order] builds once the id is chosen. *)
Definition order_dict (inst_id : pyval) (side : string) (qty : spec_float)
    (price : option spec_float) (id : pyval) : dict :=
  ([("inst_id", inst_id); ("side", VStr side); ("qty", VStr (format_8f qty))]
   ++ match price with
      | Some p => [("price", VStr (format_8f p))]
      | None => []
      end
   ++ [("client_ord_id", id)])%list.

Definition chosen_id (client_ord_id : pyval) (w : World) : pyval :=
  match client_ord_id with
  | VNone => VInt (next_nonce w)
  | v => v
  end.

(** The state that every sequence of calls keeps: the default dict of
    [request] exists, and the objects of the heap are dicts. *)
Definition world_ok (w : World) : Prop :=
  heap w <> [] /\ Forall dict_wf (heap w).

(** The dict that an operation hands to [request] (or returns, for
    [create_new_order]), before it is stamped. *)
Definition call_dict (c : call) (w : World) : dict :=
  match c with
  | GetBalance => deref default_content w
  | GetSpotInstruments _ | GetSpotInstId _ => [("sec_type", VStr "SPOT")]
  | GetInstTick i | GetOrderbook i | GetOpenOrders i => [("inst_id", i)]
  | CreateNewOrder i s q p c | SubmitNewOrder i s q p c =>
      order_dict i s q p (chosen_id c w)
  | SubmitNewOrders ords => [("orders", VList ords)]
  | CancelOrder i o => [("inst_id", i); ("order_id", o)]
  | CancelOrders i os =>
      [("entries", VList (map (fun x => VDict [("inst_id", i); ("order_id", x)]) os))]
  end.

(** Which raw random value becomes the nonce: the next one, or the one
    after it when a [client_ord_id] is drawn first. *)
Definition nonce_index (c : call) (w : World) : nat :=
  match c with
  | SubmitNewOrder _ _ _ _ VNone => S (draws w)
  | _ => draws w
  end.

Definition call_nonce (c : call) (w : World) : Z :=
  randint_of 1 nonce_max (entropy w (nonce_index c w)).

(** The requests that a call adds to the log. *)
Definition call_posts (self : CoinutAPI) (c : call) (w : World) : list http_request :=
  match api_name c with
  | Some a => [posted self (dumps (VDict (stamp a (call_nonce c w) (call_dict c w))))]
  | None => []
  end.


(** ** Sample clients and worlds *)

Definition anonymous : CoinutAPI := mk_client None None.
Definition trader : CoinutAPI := mk_client (Some "trader") (Some "secret").

(** A server that answers every request with the list of one spot
    instrument. *)
Definition spot_listing : dict :=
  [("SPOT", VDict [("BTCUSDT", VList [VDict [("inst_id", VInt 1); ("base", VStr "BTC")]])])].

Definition spot_world : World :=
  initial_world (fun i => Z.of_nat i) (fun _ => ReplyJson (VDict spot_listing)).

(** A new interpreter whose server never answers. *)
Definition quiet_world : World :=
  initial_world (fun i => Z.of_nat i) (fun _ => NoReply).

(** A world in which the caller holds a dict that already has the keys
    [request] and [nonce]. *)
Definition forged_world : World :=
  mk_world [ []; [("request", VStr "withdraw"); ("amount", VInt 5); ("nonce", VInt 7)] ]
           (fun i => Z.of_nat i) 0 [] (fun _ => NoReply).

(** ** Vocabulary of the further properties *)

(** What the server answers to the request of a call. *)
Definition call_reply (self : CoinutAPI) (c : call) (w : World) : reply :=
  server w (sent w ++ call_posts self c w)%list.



(** A server whose reply has no [SPOT] field, and one that lists a pair
    without any instrument. *)
Definition error_world : World :=
  initial_world (fun i => Z.of_nat i)
    (fun _ => ReplyJson (VDict [("status", VList [VStr "ERROR"])])).

Definition empty_pair_world : World :=
  initial_world (fun i => Z.of_nat i)
    (fun _ => ReplyJson (VDict [("SPOT", VDict [("BTCUSDT", VList [])])])).


(** A server that answers with the open orders of an instrument. *)
Definition orders_world : World :=
  initial_world (fun i => Z.of_nat i)
    (fun _ => ReplyJson (VDict [("nonce", VInt 1);
                                ("orders", VList [VDict [("order_id", VInt 3355)]])])).


(** The state of a new client after a sequence of calls. *)
Definition after (self : CoinutAPI) (rnd : nat -> Z) (srv : list http_request -> reply)
    (cs : list call) : World :=
  run_calls self cs (initial_world rnd srv).

(** Fuel that [read_value] needs to read back [dumps v]. *)
Fixpoint need (v : pyval) : nat :=
  match v with
  | VList l => S (fold_right (fun x acc => S (need x + acc)) 0 l)%nat
  | VDict d => S (fold_right (fun kv acc => S (need (snd kv) + acc)) 0 d)%nat
  | _ => 1%nat
  end.

Definition all_digits (s : string) : Prop := string_forallb is_digit s = true.

(** The text after a numeral must not go on with a digit. *)
Definition head_not_digit (s : string) : Prop :=
  match s with
  | String c _ => is_digit c = false
  | EmptyString => True
  end.

(** A value does not begin with white space nor with a closing bracket. *)
Definition value_head (s : string) : Prop :=
  match s with
  | String c _ =>
      is_ws c = false /\ (N_of_ascii c =? 93)%N = false /\ (N_of_ascii c =? 125)%N = false
  | EmptyString => False
  end.

(** Reading [dumps v] with enough fuel gives [v] and leaves the rest. *)
Definition reads_back (v : pyval) : Prop :=
  forall fuel rest,
    (need v <= fuel)%nat -> head_not_digit rest ->
    read_value fuel (dumps v ++ rest) = Some (v, rest).

Definition need_elems (l : list pyval) : nat :=
  fold_right (fun x acc => S (need x + acc))%nat 0%nat l.

Definition need_members (d : dict) : nat :=
  fold_right (fun kv acc => S (need (snd kv) + acc))%nat 0%nat d.

(** ** Byte strings

    A Python 2 [str] is a string of bytes.  [json.dumps] escapes text:
    when a [str] holds a byte from 128 on, the encoder first decodes it
    as UTF-8 ([s.decode('utf-8')] in [py_encode_basestring_ascii],
    [PyUnicode_DecodeUTF8] in [ascii_escape_str] of _json.c) and raises
    [UnicodeDecodeError] when the bytes are not UTF-8.  The definitions
    above follow a string character by character, which is what the
    encoder does with text: a [unicode] object of code points below
    256, or a [str] that is ASCII.  The module [ByteStr] follows the
    same source lines where every string is a [str] of arbitrary
    bytes: [json.dumps] is partial, and [request] raises before it
    posts when the dict cannot be written. *)

Definition is_cont (b : N) : bool := ((128 <=? b) && (b <? 192))%N.

Definition prepend (n : N) (r : option (list N)) : option (list N) :=
  option_map (cons n) r.

(** [PyUnicode_DecodeUTF8(s, size, "strict")] of CPython 2.7: the code
    points of a [str].  A first byte in [80, C1] or [F5, FF] starts no
    sequence; E0, F0 and F4 restrict the second byte (no overlong form,
    nothing above 10FFFF); the surrogates ED A0 80 .. ED BF BF are
    accepted by this version. *)
Fixpoint utf8_decode (s : string) : option (list N) :=
  match s with
  | EmptyString => Some []
  | String c0 s1 =>
      let b0 := N_of_ascii c0 in
      if (b0 <? 128)%N then prepend b0 (utf8_decode s1)
      else if (b0 <? 194)%N then None
      else if (b0 <? 224)%N then
        match s1 with
        | String c1 s2 =>
            let b1 := N_of_ascii c1 in
            if is_cont b1
            then prepend ((b0 - 192) * 64 + (b1 - 128))%N (utf8_decode s2)
            else None
        | EmptyString => None
        end
      else if (b0 <? 240)%N then
        match s1 with
        | String c1 (String c2 s3) =>
            let b1 := N_of_ascii c1 in
            let b2 := N_of_ascii c2 in
            if is_cont b1 && is_cont b2 && negb ((b0 =? 224) && (b1 <? 160))%N
            then prepend ((b0 - 224) * 4096 + (b1 - 128) * 64 + (b2 - 128))%N
                         (utf8_decode s3)
            else None
        | _ => None
        end
      else if (b0 <? 245)%N then
        match s1 with
        | String c1 (String c2 (String c3 s4)) =>
            let b1 := N_of_ascii c1 in
            let b2 := N_of_ascii c2 in
            let b3 := N_of_ascii c3 in
            if is_cont b1 && is_cont b2 && is_cont b3
               && negb ((b0 =? 240) && (b1 <? 144))%N
               && negb ((b0 =? 244) && (143 <? b1))%N
            then prepend ((b0 - 240) * 262144 + (b1 - 128) * 4096
                          + (b2 - 128) * 64 + (b3 - 128))%N
                         (utf8_decode s4)
            else None
        | _ => None
        end
      else None
  end.

(** Four lowercase hexadecimal digits: ['{0:04x}'.format(n)] for
    [n < 0x10000]. *)
Definition hex4 (n : N) : string :=
  String (hex_digit (n / 4096)) (String (hex_digit ((n / 256) mod 16)) (hex2 (n mod 256))).

(** [replace] of [py_encode_basestring_ascii] on one code point. *)
Definition escape_code_point (n : N) : string :=
  if (n =? 34)%N then String backslash (str1 dquote)
  else if (n =? 92)%N then String backslash (str1 backslash)
  else if (n =? 8)%N then String backslash "b"
  else if (n =? 12)%N then String backslash "f"
  else if (n =? 10)%N then String backslash "n"
  else if (n =? 13)%N then String backslash "r"
  else if (n =? 9)%N then String backslash "t"
  else if ((32 <=? n) && (n <=? 126))%N then str1 (ascii_of_N n)
  else if (n <? 65536)%N then String backslash ("u" ++ hex4 n)
  else
    let m := (n - 65536)%N in
    let s1 := N.lor 55296 (N.land (N.shiftr m 10) 1023) in
    let s2 := N.lor 56320 (N.land m 1023) in
    String backslash ("u" ++ hex4 s1) ++ String backslash ("u" ++ hex4 s2).

Fixpoint escape_text (cps : list N) : string :=
  match cps with
  | [] => EmptyString
  | n :: cps' => escape_code_point n ++ escape_text cps'
  end.

(** The list of the values when none is missing. *)
Fixpoint all_some {A : Type} (l : list (option A)) : option (list A) :=
  match l with
  | [] => Some []
  | Some x :: l' => option_map (cons x) (all_some l')
  | None :: _ => None
  end.

(** What the reader of JSON text gives for a code point: the
    character itself below 256, a question mark for each escape
    otherwise (two escapes from 10000 on). *)
Definition code_point_text (n : N) : string :=
  if (n <? 256)%N then str1 (ascii_of_N n)
  else if (n <? 65536)%N then "?"
  else "??".

Fixpoint text_of (cps : list N) : string :=
  match cps with
  | [] => EmptyString
  | n :: cps' => code_point_text n ++ text_of cps'
  end.

(** The text of a [str], as the reader gives it back. *)
Definition str_text (s : string) : string :=
  match utf8_decode s with
  | Some cps => text_of cps
  | None => EmptyString
  end.

Fixpoint value_text (v : pyval) : pyval :=
  match v with
  | VStr s => VStr (str_text s)
  | VList l => VList (map value_text l)
  | VDict d => VDict (map (fun kv => (str_text (fst kv), value_text (snd kv))) d)
  | _ => v
  end.

Definition is_ascii_str (s : string) : bool :=
  string_forallb (fun c => (N_of_ascii c <? 128)%N) s.

Module ByteStr.

(** [encode_basestring_ascii] on a [str]. *)
Definition encode_basestring_ascii (s : string) : option string :=
  match utf8_decode s with
  | Some cps => Some (String dquote (escape_text cps ++ str1 dquote))
  | None => None
  end.

(** [json.dumps]; [None] stands for [UnicodeDecodeError]. *)
Fixpoint dumps (v : pyval) : option string :=
  match v with
  | VNone => Some "null"
  | VBool true => Some "true"
  | VBool false => Some "false"
  | VInt z => Some (str_of_Z z)
  | VStr s => encode_basestring_ascii s
  | VList l =>
      option_map (fun ts => "[" ++ String.concat ", " ts ++ "]") (all_some (map dumps l))
  | VDict d =>
      option_map (fun ts => "{" ++ String.concat ", " ts ++ "}")
        (all_some (map (fun kv =>
                          match encode_basestring_ascii (fst kv), dumps (snd kv) with
                          | Some k, Some t => Some (k ++ ": " ++ t)
                          | _, _ => None
                          end) d))
  end.

(** [v[k]] where [v] was parsed from a reply, so that its keys are
    [unicode] objects, and [k] is a [str]: a [str] with a byte from 128
    on is equal to no [unicode] object. *)
Definition getitem (v : pyval) (k : string) : M pyval :=
  match v with
  | VDict d =>
      if is_ascii_str k then
        match dict_get k d with
        | Some x => ret x
        | None => raise KeyError
        end
      else raise KeyError
  | _ => raise TypeError
  end.

Definition request (self : CoinutAPI) (api : string) (content : option loc) : M pyval :=
  let content := match content with Some l => l | None => default_content end in
  let url := "https://api.coinut.com" in
  dict_setitem content "request" (VStr api) ;;;
  n <- randint 1 nonce_max ;;
  dict_setitem content "nonce" (VInt n) ;;;
  d <- read_dict content ;;
  match dumps (VDict d) with
  | None => raise UnicodeDecodeError
  | Some content =>
      let headers :=
        match api_key self, user self with
        | Some key, Some u => [("X-USER", u); ("X-SIGNATURE", hmac_hexdigest key content)]
        | _, _ => []
        end in
      requests_post_json url headers content 5
  end.

Definition get_balance (self : CoinutAPI) : M pyval :=
  request self "user_balance" None.

Definition get_spot_instruments (self : CoinutAPI) (pair : option string) : M pyval :=
  c <- new_dict [("sec_type", VStr "SPOT")] ;;
  result <- request self "inst_list" (Some c) ;;
  match pair with
  | Some p =>
      spot <- getitem result "SPOT" ;;
      insts <- getitem spot p ;;
      getitem0 insts
  | None => getitem result "SPOT"
  end.

Definition get_spot_inst_id (self : CoinutAPI) (pair : string) : M pyval :=
  inst <- get_spot_instruments self (Some pair) ;;
  getitem inst "inst_id".

Definition get_inst_tick (self : CoinutAPI) (inst_id : pyval) : M pyval :=
  c <- new_dict [("inst_id", inst_id)] ;;
  request self "inst_tick" (Some c).

Definition get_orderbook (self : CoinutAPI) (inst_id : pyval) : M pyval :=
  c <- new_dict [("inst_id", inst_id)] ;;
  request self "inst_order_book" (Some c).

Definition get_open_orders (self : CoinutAPI) (inst_id : pyval) : M pyval :=
  c <- new_dict [("inst_id", inst_id)] ;;
  r <- request self "user_open_orders" (Some c) ;;
  getitem r "orders".

Definition submit_new_order (self : CoinutAPI) (inst_id : pyval) (side : string)
    (qty : spec_float) (price : option spec_float) (client_ord_id : pyval) : M pyval :=
  order <- create_new_order self inst_id side qty price client_ord_id ;;
  request self "new_order" (Some order).

Definition submit_new_orders (self : CoinutAPI) (ords : list pyval) : M pyval :=
  c <- new_dict [("orders", VList ords)] ;;
  request self "new_orders" (Some c).

Definition cancel_order (self : CoinutAPI) (inst_id order_id : pyval) : M pyval :=
  c <- new_dict [("inst_id", inst_id); ("order_id", order_id)] ;;
  request self "cancel_order" (Some c).

Definition cancel_orders (self : CoinutAPI) (inst_id : pyval) (order_ids : list pyval) : M pyval :=
  let ords := map (fun x => VDict [("inst_id", inst_id); ("order_id", x)]) order_ids in
  c <- new_dict [("entries", VList ords)] ;;
  request self "cancel_orders" (Some c).

Definition run_call (self : CoinutAPI) (c : call) : M result :=
  match c with
  | GetBalance => as_value (get_balance self)
  | GetSpotInstruments p => as_value (get_spot_instruments self p)
  | GetSpotInstId p => as_value (get_spot_inst_id self p)
  | GetInstTick i => as_value (get_inst_tick self i)
  | GetOrderbook i => as_value (get_orderbook self i)
  | GetOpenOrders i => as_value (get_open_orders self i)
  | CreateNewOrder i s q p c => l <- create_new_order self i s q p c ;; ret (Ref l)
  | SubmitNewOrder i s q p c => as_value (submit_new_order self i s q p c)
  | SubmitNewOrders ords => as_value (submit_new_orders self ords)
  | CancelOrder i o => as_value (cancel_order self i o)
  | CancelOrders i os => as_value (cancel_orders self i os)
  end.

Fixpoint run_calls (self : CoinutAPI) (cs : list call) (w : World) : World :=
  match cs with
  | [] => w
  | c :: cs' => run_calls self cs' (snd (run_call self c w))
  end.

(** The requests that a call adds to the log: none when the dict
    cannot be written. *)
Definition call_posts (self : CoinutAPI) (c : call) (w : World) : list http_request :=
  match api_name c with
  | Some a =>
      match dumps (VDict (stamp a (call_nonce c w) (call_dict c w))) with
      | Some body => [posted self body]
      | None => []
      end
  | None => []
  end.

End ByteStr.

(** * Properties *)

(** ** Strings *)

Lemma sapp_assoc (a b c : string) : (a ++ b) ++ c = a ++ (b ++ c).
Proof. induction a as [|x a IH]; simpl; [reflexivity | now rewrite IH]. Qed.

Lemma sapp_nil_r (a : string) : a ++ "" = a.
Proof. induction a as [|x a IH]; simpl; [reflexivity | now rewrite IH]. Qed.

Lemma slength_app (a b : string) :
  String.length (a ++ b) = (String.length a + String.length b)%nat.
Proof. induction a as [|x a IH]; simpl; [reflexivity | now rewrite IH]. Qed.

Lemma forallb_sapp (p : ascii -> bool) (a b : string) :
  string_forallb p (a ++ b) = string_forallb p a && string_forallb p b.
Proof.
  induction a as [|x a IH]; simpl; [reflexivity |].
  now rewrite IH, andb_assoc.
Qed.

(** ** Decimal numerals *)

(** Case analysis on a number known to be small: four binary digits
    are enough for a decimal or a hexadecimal digit. *)
Ltac split_positive :=
  do 5 (try match goal with p : positive |- _ => destruct p end).

Ltac digit_cases d := destruct d; [ | split_positive | ]; try lia.

Lemma digit_val_char (d : Z) : 0 <= d < 10 -> digit_val (digit_char d) = d.
Proof. intros Hd. digit_cases d; reflexivity. Qed.

Lemma is_digit_char (d : Z) : 0 <= d < 10 -> is_digit (digit_char d) = true.
Proof. intros Hd. digit_cases d; reflexivity. Qed.

Lemma digit_char_zero (d : Z) :
  1 <= d < 10 -> Ascii.eqb (digit_char d) (ascii_of_N 48) = false.
Proof. intros Hd. digit_cases d; try reflexivity; lia. Qed.

Lemma horner_app (acc : Z) (a b : string) :
  horner acc (a ++ b) = horner (horner acc a) b.
Proof. revert acc. induction a as [|x a IH]; intros acc; simpl; [reflexivity | apply IH]. Qed.

Lemma digits_of_all (fuel : nat) (n : Z) : 0 <= n -> all_digits (digits_of fuel n).
Proof.
  unfold all_digits. revert n. induction fuel as [|f IH]; intros n Hn; simpl; [reflexivity |].
  destruct (Z.ltb_spec n 10).
  - simpl. rewrite is_digit_char by lia. reflexivity.
  - rewrite forallb_sapp, IH by (apply Z.div_pos; lia). simpl.
    rewrite is_digit_char; [reflexivity | apply Z.mod_pos_bound; lia].
Qed.

Lemma horner_digits_of (fuel : nat) (n : Z) :
  0 <= n < 2 ^ Z.of_nat fuel -> horner 0 (digits_of fuel n) = n.
Proof.
  revert n. induction fuel as [|f IH]; intros n Hn.
  - simpl in Hn. assert (n = 0) by lia. subst. reflexivity.
  - cbn [digits_of]. destruct (Z.ltb_spec n 10).
    + simpl. rewrite digit_val_char; lia.
    + rewrite horner_app, IH.
      * simpl. rewrite digit_val_char by (apply Z.mod_pos_bound; lia).
        pose proof (Z.div_mod n 10). lia.
      * rewrite Nat2Z.inj_succ, Z.pow_succ_r in Hn by lia.
        split; [apply Z.div_pos; lia |].
        apply Z.div_lt_upper_bound; lia.
Qed.

(** The first digit is not a zero, except for the numeral of zero. *)
Lemma digits_of_head (fuel : nat) (n : Z) :
  0 <= n < 2 ^ Z.of_nat (S fuel) ->
  exists c t, digits_of (S fuel) n = String c t
              /\ (1 <= n -> Ascii.eqb c (ascii_of_N 48) = false)
              /\ (n < 10 -> t = EmptyString).
Proof.
  revert n. induction fuel as [|f IH]; intros n Hn.
  - change (2 ^ Z.of_nat 1) with 2 in Hn. cbn [digits_of].
    destruct (Z.ltb_spec n 10); [| lia].
    exists (digit_char n), EmptyString. repeat split; auto.
    intros. apply digit_char_zero. lia.
  - cbn [digits_of]. destruct (Z.ltb_spec n 10).
    + exists (digit_char n), EmptyString. repeat split; auto.
      intros. apply digit_char_zero. lia.
    + destruct (IH (n / 10)) as (c & t & E & Hc & _).
      * rewrite Nat2Z.inj_succ, Z.pow_succ_r in Hn by lia.
        split; [apply Z.div_pos; lia |].
        apply Z.div_lt_upper_bound; lia.
      * cbn [digits_of] in E. rewrite E. simpl.
        exists c, (t ++ str1 (digit_char (n mod 10))). repeat split.
        -- intros _. apply Hc.
           apply Z.div_le_lower_bound; lia.
        -- lia.
Qed.

Lemma log2_fuel (n : Z) : 0 <= n -> 0 <= n < 2 ^ Z.of_nat (S (Z.to_nat (Z.log2 n))).
Proof.
  intros Hn. split; [assumption |].
  rewrite Nat2Z.inj_succ, Z2Nat.id by apply Z.log2_nonneg.
  destruct (Z.eq_dec n 0) as [-> | Hz]; [reflexivity |].
  apply Z.log2_spec. lia.
Qed.

Lemma str_of_nonneg_digits (n : Z) : 0 <= n -> all_digits (str_of_nonneg n).
Proof. intros. now apply digits_of_all. Qed.

Lemma str_of_nonneg_value (n : Z) : 0 <= n -> horner 0 (str_of_nonneg n) = n.
Proof. intros. apply horner_digits_of. now apply log2_fuel. Qed.

Lemma span_digits_app (ds rest : string) :
  all_digits ds -> head_not_digit rest -> span_digits (ds ++ rest) = (ds, rest).
Proof.
  unfold all_digits. induction ds as [|c ds IH]; simpl; intros Hd Hr.
  - destruct rest as [|c r]; [reflexivity |]. simpl in *. now rewrite Hr.
  - apply andb_prop in Hd as [Hc Hd]. rewrite Hc, IH by assumption. reflexivity.
Qed.

Lemma read_nat_digits_str (n : Z) (rest : string) :
  0 <= n -> head_not_digit rest ->
  read_nat_digits (str_of_nonneg n ++ rest) = Some (n, rest).
Proof.
  intros Hn Hr. unfold read_nat_digits.
  rewrite span_digits_app by (auto using str_of_nonneg_digits).
  pose proof (str_of_nonneg_value n Hn) as Hv.
  destruct (digits_of_head (Z.to_nat (Z.log2 n)) n (log2_fuel n Hn)) as (c & t & E & Hc & Ht).
  unfold str_of_nonneg in *. rewrite E in *. rewrite Hv.
  destruct (Z.ltb_spec n 1).
  - rewrite (Ht ltac:(lia)). cbn [String.eqb negb]. now rewrite andb_false_r.
  - rewrite Hc by lia. reflexivity.
Qed.

(** ** Reading back what [json.dumps] wrote *)

Lemma read_escape_char (c : ascii) (t : string) :
  read_string_body (escape_char c ++ t) = cons_char c (read_string_body t).
Proof. destruct c as [[] [] [] [] [] [] [] []]; reflexivity. Qed.

Lemma read_escape (s rest : string) :
  read_string_body (escape s ++ String dquote rest) = Some (s, rest).
Proof.
  induction s as [|c s IH]; simpl; [reflexivity |].
  now rewrite sapp_assoc, read_escape_char, IH.
Qed.

Lemma pyval_induction (P : pyval -> Prop) :
  P VNone -> (forall b, P (VBool b)) -> (forall z, P (VInt z)) -> (forall s, P (VStr s)) ->
  (forall l, Forall P l -> P (VList l)) ->
  (forall d, Forall (fun kv => P (snd kv)) d -> P (VDict d)) ->
  forall v, P v.
Proof.
  intros HN HB HI HS HL HD. fix IH 1. intros [ | b | z | s | l | d].
  - exact HN.
  - apply HB.
  - apply HI.
  - apply HS.
  - apply HL. induction l as [|x l IHl]; constructor; [apply IH | exact IHl].
  - apply HD. induction d as [|kv d IHd]; constructor; [apply IH | exact IHd].
Qed.

Lemma digit_value_head (c : ascii) (t : string) : is_digit c = true -> value_head (String c t).
Proof.
  destruct c as [[] [] [] [] [] [] [] []]; intros H; try discriminate H;
    repeat split; reflexivity.
Qed.

Lemma str_of_nonneg_cons (n : Z) :
  0 <= n -> exists c t, str_of_nonneg n = String c t /\ is_digit c = true.
Proof.
  intros Hn.
  destruct (digits_of_head _ n (log2_fuel n Hn)) as (c & t & E & _).
  exists c, t. split; [exact E |].
  pose proof (str_of_nonneg_digits n Hn) as Hd. unfold all_digits, str_of_nonneg in Hd.
  rewrite E in Hd. simpl in Hd. now apply andb_prop in Hd.
Qed.

Lemma dumps_head (v : pyval) (rest : string) : value_head (dumps v ++ rest).
Proof.
  destruct v as [ | [] | z | s | l | d]; try (simpl; repeat split; reflexivity).
  simpl. unfold str_of_Z. destruct (Z.ltb_spec z 0).
  - simpl. repeat split; reflexivity.
  - destruct (str_of_nonneg_cons z) as (c & t & E & Hc); [lia |].
    rewrite E. simpl. now apply digit_value_head.
Qed.

Lemma skip_ws_value (s : string) : value_head s -> skip_ws s = s.
Proof. destruct s as [|c s]; simpl; [tauto |]. now intros (-> & _). Qed.

Lemma read_value_space (fuel : nat) (s : string) :
  read_value fuel (String (ascii_of_N 32) s) = read_value fuel s.
Proof. destruct fuel; reflexivity. Qed.

Lemma read_elems_space (fuel : nat) (s : string) :
  read_elems fuel (String (ascii_of_N 32) s) = read_elems fuel s.
Proof. destruct fuel; [reflexivity |]. cbn [read_elems]. now rewrite read_value_space. Qed.

Lemma read_members_space (fuel : nat) (s : string) :
  read_members fuel (String (ascii_of_N 32) s) = read_members fuel s.
Proof. destruct fuel; reflexivity. Qed.

Lemma read_value_digit (fuel : nat) (c : ascii) (r : string) :
  is_digit c = true ->
  read_value (S fuel) (String c r)
  = option_map (fun nr => (VInt (fst nr), snd nr)) (read_nat_digits (String c r)).
Proof.
  destruct c as [[] [] [] [] [] [] [] []]; intros H; try discriminate H; reflexivity.
Qed.

Lemma read_value_bracket (fuel : nat) (rest : string) :
  read_value (S fuel) (String (ascii_of_N 91) rest)
  = match skip_ws rest with
    | String c' rest' =>
        if (N_of_ascii c' =? 93)%N then Some (VList [], rest')
        else option_map (fun lr => (VList (fst lr), snd lr)) (read_elems fuel rest)
    | EmptyString => None
    end.
Proof. reflexivity. Qed.

Lemma read_value_list (fuel : nat) (c : ascii) (r : string) :
  value_head (String c r) ->
  read_value (S fuel) (String (ascii_of_N 91) (String c r))
  = option_map (fun lr => (VList (fst lr), snd lr)) (read_elems fuel (String c r)).
Proof.
  intros (Hws & Hb & _). rewrite read_value_bracket. cbn [skip_ws].
  rewrite Hws, Hb. reflexivity.
Qed.

Lemma read_value_dict (fuel : nat) (r : string) :
  read_value (S fuel) (String (ascii_of_N 123) (String dquote r))
  = option_map (fun dr => (VDict (fst dr), snd dr)) (read_members fuel (String dquote r)).
Proof. reflexivity. Qed.

Lemma read_elems_dumps (l : list pyval) :
  Forall reads_back l -> l <> [] ->
  forall fuel rest,
    (need_elems l <= fuel)%nat ->
    read_elems fuel (String.concat ", " (map dumps l) ++ String (ascii_of_N 93) rest)
    = Some (l, rest).
Proof.
  induction l as [|x l IH]; intros HF Hne fuel rest Hfuel; [contradiction |].
  inversion HF as [|? ? Hx HF']; subst.
  destruct fuel as [|fuel]; [simpl in Hfuel; lia |].
  cbn [need_elems fold_right] in Hfuel. fold (need_elems l) in Hfuel.
  destruct l as [|y l].
  - cbn [map String.concat read_elems].
    rewrite Hx by (simpl; try lia; reflexivity). reflexivity.
  - change (String.concat ", " (map dumps (x :: y :: l)))
      with (dumps x ++ ", " ++ String.concat ", " (map dumps (y :: l))).
    rewrite !sapp_assoc. cbn [read_elems].
    rewrite Hx by (simpl; try lia; reflexivity).
    cbn -[read_elems String.concat map].
    rewrite read_elems_space, IH by (try assumption; try discriminate; lia).
    reflexivity.
Qed.

Lemma read_members_quote (fuel : nat) (s1 : string) :
  read_members (S fuel) (String dquote s1)
  = match read_string_body s1 with
    | None => None
    | Some (k, s2) =>
        match skip_ws s2 with
        | String c s3 =>
            if (N_of_ascii c =? 58)%N then
              match read_value fuel s3 with
              | None => None
              | Some (v, r) =>
                  match skip_ws r with
                  | String c' r' =>
                      if (N_of_ascii c' =? 125)%N then Some ([(k, v)], r')
                      else if (N_of_ascii c' =? 44)%N then
                        option_map (fun dr => ((k, v) :: fst dr, snd dr))
                                   (read_members fuel r')
                      else None
                  | EmptyString => None
                  end
              end
            else None
        | EmptyString => None
        end
    end.
Proof. reflexivity. Qed.

Lemma read_member (fuel : nat) (k : string) (v : pyval) (more : string) :
  reads_back v -> (need v <= fuel)%nat -> head_not_digit more ->
  read_members (S fuel) (encode_basestring_ascii k ++ ": " ++ dumps v ++ more)
  = match skip_ws more with
    | String c' r' =>
        if (N_of_ascii c' =? 125)%N then Some ([(k, v)], r')
        else if (N_of_ascii c' =? 44)%N then
          option_map (fun dr => ((k, v) :: fst dr, snd dr)) (read_members fuel r')
        else None
    | EmptyString => None
    end.
Proof.
  intros Hv Hfuel Hmore. unfold encode_basestring_ascii.
  change (String dquote (escape k ++ str1 dquote) ++ ": " ++ dumps v ++ more)
    with (String dquote ((escape k ++ str1 dquote) ++ ": " ++ dumps v ++ more)).
  rewrite read_members_quote, sapp_assoc.
  change (str1 dquote ++ ": " ++ dumps v ++ more)
    with (String dquote (String (ascii_of_N 58) (String (ascii_of_N 32) (dumps v ++ more)))).
  rewrite read_escape. cbn [skip_ws].
  change (is_ws (ascii_of_N 58)) with false. cbv iota.
  change (N_of_ascii (ascii_of_N 58) =? 58)%N with true. cbv iota.
  rewrite read_value_space, Hv by assumption. reflexivity.
Qed.

Lemma read_members_dumps (d : dict) :
  Forall (fun kv => reads_back (snd kv)) d -> d <> [] ->
  forall fuel rest,
    (need_members d <= fuel)%nat ->
    read_members fuel
      (String.concat ", "
         (map (fun kv => encode_basestring_ascii (fst kv) ++ ": " ++ dumps (snd kv)) d)
       ++ String (ascii_of_N 125) rest)
    = Some (d, rest).
Proof.
  induction d as [|[k v] d IH]; intros HF Hne fuel rest Hfuel; [contradiction |].
  inversion HF as [|? ? Hx HF']; subst. simpl in Hx.
  destruct fuel as [|fuel]; [simpl in Hfuel; lia |].
  cbn [need_members fold_right snd] in Hfuel. fold (need_members d) in Hfuel.
  destruct d as [|kv d].
  - cbn [map String.concat fst snd]. rewrite !sapp_assoc.
    rewrite read_member by (try assumption; simpl; try lia; reflexivity).
    reflexivity.
  - change (String.concat ", " (map ?f ((k, v) :: kv :: d)))
      with (f (k, v) ++ ", " ++ String.concat ", " (map f (kv :: d))).
    cbn [fst snd]. rewrite !sapp_assoc.
    rewrite read_member by (try assumption; simpl; try lia; reflexivity).
    cbn -[read_members String.concat map].
    rewrite read_members_space, IH by (try assumption; try discriminate; lia).
    reflexivity.
Qed.

Lemma concat_head (f : pyval -> string) (x : pyval) (l : list pyval) (t : string) :
  exists more, String.concat ", " (map f (x :: l)) ++ t = f x ++ more.
Proof.
  destruct l as [|y l].
  - exists t. reflexivity.
  - exists (", " ++ String.concat ", " (map f (y :: l)) ++ t).
    change (String.concat ", " (map f (x :: y :: l)))
      with (f x ++ ", " ++ String.concat ", " (map f (y :: l))).
    now rewrite !sapp_assoc.
Qed.

Lemma members_head (d : dict) (kv : string * pyval) (t : string) :
  exists more,
    String.concat ", "
      (map (fun kv => encode_basestring_ascii (fst kv) ++ ": " ++ dumps (snd kv)) (kv :: d)) ++ t
    = String dquote more.
Proof.
  destruct d as [|kv' d]; eexists; cbn [map String.concat];
    unfold encode_basestring_ascii at 1; cbn [append]; reflexivity.
Qed.

(** Reading [dumps v] gives [v] back and leaves the rest. *)
Lemma read_dumps (v : pyval) : reads_back v.
Proof.
  induction v as [ | b | z | s | l IH | d IH] using pyval_induction;
    intros fuel rest Hfuel Hrest;
    (destruct fuel as [|fuel]; [simpl in Hfuel; lia |]).
  - reflexivity.
  - destruct b; reflexivity.
  - cbn [dumps]. unfold str_of_Z. destruct (Z.ltb_spec z 0).
    + change (read_value (S fuel) (String (ascii_of_N 45) (str_of_nonneg (- z)) ++ rest))
        with (option_map (fun nr : Z * string => (VInt (- fst nr), snd nr))
                (read_nat_digits (str_of_nonneg (- z) ++ rest))).
      rewrite read_nat_digits_str by (try assumption; lia).
      simpl. now rewrite Z.opp_involutive.
    + destruct (str_of_nonneg_cons z) as (c & t & E & Hc); [lia |].
      pose proof (read_nat_digits_str z rest ltac:(lia) Hrest) as Hr.
      rewrite E in *. cbn [append] in *.
      rewrite read_value_digit, Hr by assumption. reflexivity.
  - cbn [dumps]. unfold encode_basestring_ascii. cbn [append]. rewrite sapp_assoc.
    change (read_value (S fuel) (String dquote (escape s ++ str1 dquote ++ rest)))
      with (option_map (fun tr : string * string => (VStr (fst tr), snd tr))
              (read_string_body (escape s ++ String dquote rest))).
    now rewrite read_escape.
  - cbn [dumps need] in *. fold (need_elems l) in Hfuel.
    change (("[" ++ String.concat ", " (map dumps l) ++ "]") ++ rest)
      with (String (ascii_of_N 91) ((String.concat ", " (map dumps l) ++ "]") ++ rest)).
    rewrite sapp_assoc. change ("]" ++ rest) with (String (ascii_of_N 93) rest).
    destruct l as [|x l]; [reflexivity |].
    destruct (concat_head dumps x l (String (ascii_of_N 93) rest)) as (more & E).
    pose proof (dumps_head x more) as Hh. rewrite <- E in Hh.
    destruct (String.concat ", " (map dumps (x :: l)) ++ String (ascii_of_N 93) rest)
      as [|c r] eqn:Es; [contradiction |].
    rewrite read_value_list by assumption. rewrite <- Es.
    rewrite read_elems_dumps by (try assumption; try discriminate; lia).
    reflexivity.
  - cbn [dumps need] in *. fold (need_members d) in Hfuel.
    set (f := fun kv : string * pyval =>
                encode_basestring_ascii (fst kv) ++ ": " ++ dumps (snd kv)) in *.
    change (("{" ++ String.concat ", " (map f d) ++ "}") ++ rest)
      with (String (ascii_of_N 123) ((String.concat ", " (map f d) ++ "}") ++ rest)).
    rewrite sapp_assoc. change ("}" ++ rest) with (String (ascii_of_N 125) rest).
    destruct d as [|kv d]; [reflexivity |].
    destruct (members_head d kv (String (ascii_of_N 125) rest)) as (more & E).
    fold f in E. rewrite E, read_value_dict, <- E.
    unfold f. rewrite read_members_dumps by (try assumption; try discriminate; lia).
    reflexivity.
Qed.

Lemma need_elems_length (l : list pyval) :
  Forall (fun v => (need v <= String.length (dumps v))%nat) l ->
  (need_elems l <= String.length (String.concat ", " (map dumps l)) + 1)%nat.
Proof.
  induction l as [|x l IH]; intros HF; [simpl; lia |].
  inversion HF as [|? ? Hx HF']; subst. specialize (IH HF').
  destruct l as [|y l].
  - simpl in *. lia.
  - change (String.concat ", " (map dumps (x :: y :: l)))
      with (dumps x ++ ", " ++ String.concat ", " (map dumps (y :: l))).
    change (need_elems (x :: y :: l)) with (S (need x + need_elems (y :: l))).
    rewrite !slength_app. change (String.length ", ") with 2%nat. lia.
Qed.

Lemma need_members_length (d : dict) :
  Forall (fun kv => (need (snd kv) <= String.length (dumps (snd kv)))%nat) d ->
  (need_members d
   <= String.length
        (String.concat ", "
           (map (fun kv => encode_basestring_ascii (fst kv) ++ ": " ++ dumps (snd kv)) d)) + 1)%nat.
Proof.
  induction d as [|x d IH]; intros HF; [simpl; lia |].
  inversion HF as [|? ? Hx HF']; subst. specialize (IH HF').
  destruct d as [|y d].
  - cbn [map String.concat need_members fold_right]. rewrite !slength_app. lia.
  - change (String.concat ", " (map ?f (x :: y :: d)))
      with (f x ++ ", " ++ String.concat ", " (map f (y :: d))).
    change (need_members (x :: y :: d)) with (S (need (snd x) + need_members (y :: d))).
    cbn beta. rewrite !slength_app. change (String.length ", ") with 2%nat. lia.
Qed.

Lemma need_le_length (v : pyval) : (need v <= String.length (dumps v))%nat.
Proof.
  induction v as [ | b | z | s | l IH | d IH] using pyval_induction.
  - simpl. lia.
  - destruct b; simpl; lia.
  - cbn [dumps need]. unfold str_of_Z. destruct (Z.ltb_spec z 0); [simpl; lia |].
    destruct (str_of_nonneg_cons z) as (c & t & E & _); [lia |].
    rewrite E. simpl. lia.
  - simpl. lia.
  - cbn [dumps need]. fold (need_elems l). pose proof (need_elems_length l IH).
    rewrite !slength_app. change (String.length "[") with 1%nat.
    change (String.length "]") with 1%nat. lia.
  - cbn [dumps need]. fold (need_members d). pose proof (need_members_length d IH).
    rewrite !slength_app. change (String.length "{") with 1%nat.
    change (String.length "}") with 1%nat. lia.
Qed.

(** The text written by [json.dumps] is JSON, and it denotes the value
    that was written. *)
Theorem json_loads_dumps (v : pyval) : json_loads (dumps v) = Some v.
Proof.
  unfold json_loads.
  pose proof (read_dumps v (S (String.length (dumps v))) EmptyString) as H.
  rewrite sapp_nil_r in H. rewrite H; [reflexivity | | exact I].
  pose proof (need_le_length v). lia.
Qed.

Corollary dumps_valid_json (v : pyval) : valid_json (dumps v).
Proof. exists v. apply json_loads_dumps. Qed.

(** ** Dicts *)

Lemma dict_get_set_same (k : string) (v : pyval) (d : dict) :
  dict_get k (dict_set k v d) = Some v.
Proof.
  induction d as [|[k' v'] d IH]; simpl.
  - now rewrite String.eqb_refl.
  - destruct (String.eqb_spec k k'); simpl.
    + now rewrite String.eqb_refl.
    + destruct (String.eqb_spec k k'); [contradiction | exact IH].
Qed.

Lemma dict_get_set_other (k k' : string) (v : pyval) (d : dict) :
  k <> k' -> dict_get k (dict_set k' v d) = dict_get k d.
Proof.
  intros Hne. induction d as [|[k0 v0] d IH]; simpl.
  - destruct (String.eqb_spec k k'); [contradiction | reflexivity].
  - destruct (String.eqb_spec k' k0); simpl.
    + subst. destruct (String.eqb_spec k k0); [contradiction | reflexivity].
    + destruct (String.eqb_spec k k0); [reflexivity | exact IH].
Qed.

Lemma dict_set_keys_in (k k' : string) (v : pyval) (d : dict) :
  In k (dict_keys (dict_set k' v d)) -> k = k' \/ In k (dict_keys d).
Proof.
  induction d as [|[k0 v0] d IH]; simpl.
  - intros [H | []]; auto.
  - destruct (String.eqb_spec k' k0); simpl.
    + intros [H | H]; subst; auto.
    + intros [H | H]; auto. destruct (IH H); auto.
Qed.

Lemma dict_set_wf (k : string) (v : pyval) (d : dict) :
  dict_wf d -> dict_wf (dict_set k v d).
Proof.
  unfold dict_wf. induction d as [|[k0 v0] d IH]; simpl; intros Hwf.
  - constructor; [intros [] | constructor].
  - inversion Hwf as [|? ? Hnin Hwf']; subst.
    destruct (String.eqb_spec k k0); simpl.
    + subst. constructor; assumption.
    + constructor; [| auto].
      intros Hin. apply dict_set_keys_in in Hin as [-> | Hin]; [apply n; reflexivity | contradiction].
Qed.

Lemma count_key_notin (k : string) (d : dict) :
  ~ In k (dict_keys d) -> count_key k d = 0%nat.
Proof.
  unfold count_key. induction d as [|[k0 v0] d IH]; simpl; intros Hnin; [reflexivity |].
  destruct (String.eqb_spec k k0); [subst; tauto |]. apply IH. tauto.
Qed.

(** In a dict, a key that is present is present once. *)
Lemma count_key_wf (k : string) (v : pyval) (d : dict) :
  dict_wf d -> dict_get k d = Some v -> count_key k d = 1%nat.
Proof.
  unfold dict_wf. induction d as [|[k0 v0] d IH]; simpl; intros Hwf Hget; [discriminate |].
  inversion Hwf as [|? ? Hnin Hwf']; subst.
  unfold count_key in *. simpl. destruct (String.eqb_spec k k0).
  - subst. simpl. f_equal. now apply count_key_notin.
  - now apply IH.
Qed.

Lemma stamp_wf (api : string) (n : Z) (d : dict) : dict_wf d -> dict_wf (stamp api n d).
Proof. intros. unfold stamp. now do 2 apply dict_set_wf. Qed.

Lemma stamp_request (api : string) (n : Z) (d : dict) :
  dict_get "request" (stamp api n d) = Some (VStr api).
Proof.
  unfold stamp. rewrite dict_get_set_other by discriminate. apply dict_get_set_same.
Qed.

Lemma stamp_nonce (api : string) (n : Z) (d : dict) :
  dict_get "nonce" (stamp api n d) = Some (VInt n).
Proof. unfold stamp. apply dict_get_set_same. Qed.

Lemma stamp_other (k api : string) (n : Z) (d : dict) :
  k <> "request" -> k <> "nonce" -> dict_get k (stamp api n d) = dict_get k d.
Proof. intros. unfold stamp. now rewrite !dict_get_set_other. Qed.

(** ** The random source *)

Lemma randint_of_range (a b raw : Z) : a <= b -> a <= randint_of a b raw <= b.
Proof.
  intros Hab. unfold randint_of.
  pose proof (Z.mod_pos_bound raw (b - a + 1) ltac:(lia)). lia.
Qed.

Lemma next_nonce_range (w : World) : 1 <= next_nonce w <= nonce_max.
Proof. apply randint_of_range. unfold nonce_max. lia. Qed.

(** Every value of the range is the result for some raw value. *)
Lemma randint_of_onto (a b n : Z) : a <= n <= b -> randint_of a b (n - a) = n.
Proof. intros H. unfold randint_of. rewrite Z.mod_small; lia. Qed.

(** ** The heap *)

Lemma list_update_length {A : Type} (n : nat) (f : A -> A) (l : list A) :
  List.length (list_update n f l) = List.length l.
Proof.
  revert n. induction l as [|x l IH]; intros [|n]; simpl; auto.
Qed.

Lemma nth_list_update_same {A : Type} (n : nat) (f : A -> A) (l : list A) (d : A) :
  (n < List.length l)%nat -> nth n (list_update n f l) d = f (nth n l d).
Proof.
  revert n. induction l as [|x l IH]; intros [|n] H; simpl in *; try lia; auto.
  apply IH. lia.
Qed.

Lemma nth_list_update_other {A : Type} (n m : nat) (f : A -> A) (l : list A) (d : A) :
  n <> m -> nth n (list_update m f l) d = nth n l d.
Proof.
  revert n m. induction l as [|x l IH]; intros [|n] [|m] H; simpl; try reflexivity; try lia.
  apply IH. lia.
Qed.

Lemma list_update_compose {A : Type} (n : nat) (f g : A -> A) (l : list A) :
  list_update n g (list_update n f l) = list_update n (fun x => g (f x)) l.
Proof.
  revert n. induction l as [|x l IH]; intros [|n]; simpl; try reflexivity.
  now rewrite IH.
Qed.

Lemma list_update_last {A : Type} (f : A -> A) (l : list A) (x : A) :
  list_update (List.length l) f (l ++ [x])%list = (l ++ [f x])%list.
Proof. induction l as [|y l IH]; simpl; [reflexivity | now rewrite IH]. Qed.

Lemma list_update_Forall {A : Type} (P : A -> Prop) (n : nat) (f : A -> A) (l : list A) :
  (forall x, P x -> P (f x)) -> Forall P l -> Forall P (list_update n f l).
Proof.
  intros Hf. revert n. induction l as [|x l IH]; intros [|n] H; simpl; auto;
    inversion H; subst; constructor; auto.
Qed.

(** ** What [request] does, in one step *)

Lemma request_run (self : CoinutAPI) (api : string) (content : option loc) (w : World) :
  request self api content w
  = let l := target content in
    let h := list_update l (stamp api (next_nonce w)) (heap w) in
    let body := dumps (VDict (nth l h [])) in
    let log := (sent w ++ [posted self body])%list in
    (outcome_of_reply (server w log),
     mk_world h (entropy w) (S (draws w)) log (server w)).
Proof.
  unfold request, bind, dict_setitem, randint, read_dict, requests_post_json, deref.
  cbn [heap entropy draws sent server]. rewrite list_update_compose.
  fold (target content). fold (next_nonce w). fold (stamp api (next_nonce w)).
  cbv zeta. unfold posted, auth_headers, api_url.
  destruct (server w _); reflexivity.
Qed.

(** A method that builds a dict and passes it on. *)
Lemma fresh_request_run (self : CoinutAPI) (api : string) (d : dict) (w : World) :
  (c <- new_dict d ;; request self api (Some c)) w
  = let d' := stamp api (next_nonce w) d in
    let log := (sent w ++ [posted self (dumps (VDict d'))])%list in
    (outcome_of_reply (server w log),
     mk_world (heap w ++ [d']) (entropy w) (S (draws w)) log (server w)).
Proof.
  unfold bind at 1. unfold new_dict. rewrite request_run.
  unfold next_nonce. cbn [heap entropy draws sent server target].
  rewrite list_update_last, nth_middle. reflexivity.
Qed.

Lemma create_new_order_run (self : CoinutAPI) (i : pyval) (s : string) (q : spec_float)
    (p : option spec_float) (c : pyval) (w : World) :
  create_new_order self i s q p c w
  = (Return (List.length (heap w)),
     mk_world (heap w ++ [order_dict i s q p (chosen_id c w)]) (entropy w)
              (match c with VNone => S (draws w) | _ => draws w end)
              (sent w) (server w)).
Proof.
  unfold create_new_order, bind, new_dict, dict_setitem, randint, ret.
  destruct p as [p|], c; cbn [heap entropy draws sent server];
    rewrite ?list_update_last; reflexivity.
Qed.

Lemma order_dict_wf (i : pyval) (s : string) (q : spec_float) (p : option spec_float)
    (id : pyval) : dict_wf (order_dict i s q p id).
Proof.
  unfold dict_wf, order_dict. destruct p; simpl;
    repeat (constructor; [simpl; intuition discriminate |]); constructor.
Qed.

(** ** The calls, one by one *)

Lemma getitem_world (v : pyval) (k : string) (w : World) : snd (getitem v k w) = w.
Proof. destruct v; simpl; try reflexivity. destruct (dict_get k d); reflexivity. Qed.

Lemma getitem0_world (v : pyval) (w : World) : snd (getitem0 v w) = w.
Proof. destruct v as [ | | | [|] | [|] | ]; reflexivity. Qed.

Lemma snd_bind_pure {A B : Type} (m : M A) (k : A -> M B) (w : World) :
  (forall a w', snd (k a w') = w') -> snd (bind m k w) = snd (m w).
Proof. intros Hk. unfold bind. destruct (m w) as [[a|e] w']; simpl; auto. Qed.

Lemma snd_as_value (m : M pyval) (w : World) : snd (as_value m w) = snd (m w).
Proof. apply snd_bind_pure. reflexivity. Qed.

Lemma fresh_request_then {B : Type} (self : CoinutAPI) (api : string) (d : dict)
    (k : pyval -> M B) (w : World) :
  (forall v w', snd (k v w') = w') ->
  snd ((c <- new_dict d ;; r <- request self api (Some c) ;; k r) w)
  = snd ((c <- new_dict d ;; request self api (Some c)) w).
Proof.
  intros Hk. unfold bind, new_dict.
  destruct (request self api _ _) as [[v|e] w']; simpl; auto.
Qed.

Lemma get_spot_instruments_world (self : CoinutAPI) (pair : option string) (w : World) :
  snd (get_spot_instruments self pair w)
  = snd ((c <- new_dict [("sec_type", VStr "SPOT")] ;; request self "inst_list" (Some c)) w).
Proof.
  unfold get_spot_instruments. apply fresh_request_then. intros v w'.
  destruct pair as [p|]; [| apply getitem_world].
  rewrite snd_bind_pure; [apply getitem_world |]. intros spot w1.
  rewrite snd_bind_pure; [apply getitem_world |]. intros. apply getitem0_world.
Qed.

(** The state after a call, operation by operation. *)
Lemma run_call_world (self : CoinutAPI) (c : call) (w : World) :
  world_ok w ->
  snd (run_call self c w)
  = match c with
    | GetBalance =>
        mk_world (list_update default_content (stamp "user_balance" (call_nonce c w)) (heap w))
                 (entropy w) (S (draws w)) (sent w ++ call_posts self c w) (server w)
    | CreateNewOrder _ _ _ _ id =>
        mk_world (heap w ++ [call_dict c w]) (entropy w)
                 (match id with VNone => S (draws w) | _ => draws w end)
                 (sent w) (server w)
    | _ =>
        mk_world (heap w ++ [match api_name c with
                             | Some a => stamp a (call_nonce c w) (call_dict c w)
                             | None => []
                             end])
                 (entropy w) (S (nonce_index c w)) (sent w ++ call_posts self c w) (server w)
    end.
Proof.
  intros [Hne _].
  destruct c; unfold run_call; rewrite ?snd_as_value.
  - unfold get_balance. rewrite request_run. cbn [snd target].
    unfold call_posts, call_dict, call_nonce, nonce_index, api_name, deref, next_nonce.
    rewrite nth_list_update_same; [reflexivity |].
    unfold default_content. destruct (heap w); [contradiction | simpl; lia].
  - rewrite get_spot_instruments_world, fresh_request_run. reflexivity.
  - unfold get_spot_inst_id. rewrite snd_bind_pure by (intros; apply getitem_world).
    rewrite get_spot_instruments_world, fresh_request_run. reflexivity.
  - unfold get_inst_tick. rewrite fresh_request_run. reflexivity.
  - unfold get_orderbook. rewrite fresh_request_run. reflexivity.
  - unfold get_open_orders.
    rewrite fresh_request_then by (intros; apply getitem_world).
    rewrite fresh_request_run. reflexivity.
  - rewrite snd_bind_pure by reflexivity. rewrite create_new_order_run. reflexivity.
  - unfold submit_new_order, bind. rewrite create_new_order_run, request_run.
    unfold next_nonce, call_posts, call_nonce, call_dict, nonce_index, api_name, chosen_id.
    cbn [heap entropy draws sent server target snd].
    rewrite list_update_last, nth_middle.
    destruct client_ord_id; reflexivity.
  - unfold submit_new_orders. rewrite fresh_request_run. reflexivity.
  - unfold cancel_order. rewrite fresh_request_run. reflexivity.
  - unfold cancel_orders. rewrite fresh_request_run. reflexivity.
Qed.

Lemma call_dict_wf (c : call) (w : World) : world_ok w -> dict_wf (call_dict c w).
Proof.
  intros [Hne HF]. destruct c; simpl;
    try apply order_dict_wf;
    try (unfold dict_wf; simpl;
         repeat (constructor; [simpl; intuition discriminate |]); constructor).
  unfold deref, default_content. destruct (heap w) as [|d h]; [contradiction |].
  simpl. now inversion HF.
Qed.

Lemma run_call_sent (self : CoinutAPI) (c : call) (w : World) :
  world_ok w -> sent (snd (run_call self c w)) = (sent w ++ call_posts self c w)%list.
Proof.
  intros Hok. rewrite run_call_world by assumption.
  destruct c; cbn [sent]; try reflexivity.
  unfold call_posts. simpl. now rewrite app_nil_r.
Qed.



Lemma run_call_ok (self : CoinutAPI) (c : call) (w : World) :
  world_ok w -> world_ok (snd (run_call self c w)).
Proof.
  intros Hok. pose proof (call_dict_wf c w Hok) as Hd.
  rewrite run_call_world by assumption. destruct Hok as [Hne HF].
  assert (Happ : forall d, dict_wf d -> world_ok (mk_world (heap w ++ [d]) (entropy w) 0 [] (server w))).
  { intros d Hwf. split; cbn [heap].
    - destruct (heap w); discriminate.
    - apply Forall_app. split; [assumption | now constructor]. }
  assert (Hany : forall h e1 d1 s1 v1 d2 s2,
             world_ok (mk_world h e1 d1 s1 v1) -> world_ok (mk_world h e1 d2 s2 v1)).
  { intros * H. exact H. }
  destruct c; cbn [api_name];
    try (eapply Hany, Happ; try apply stamp_wf; exact Hd).
  split; cbn [heap].
  - intros E. apply (f_equal (@List.length dict)) in E.
    rewrite list_update_length in E. destruct (heap w); [contradiction | discriminate].
  - apply list_update_Forall; [intros; now apply stamp_wf | assumption].
Qed.

Lemma initial_world_ok (rnd : nat -> Z) (srv : list http_request -> reply) :
  world_ok (initial_world rnd srv).
Proof.
  split; simpl; [discriminate |]. constructor; [constructor | constructor].
Qed.

Lemma run_calls_ok (self : CoinutAPI) (cs : list call) (w : World) :
  world_ok w -> world_ok (run_calls self cs w).
Proof.
  revert w. induction cs as [|c cs IH]; intros w Hok; simpl; [assumption |].
  apply IH. now apply run_call_ok.
Qed.


(** ** The digest *)

Lemma be_bytes_length (n : nat) (x : Z) : List.length (be_bytes n x) = n.
Proof.
  revert x. induction n as [|n IH]; intros x; simpl; [reflexivity |].
  rewrite length_app, IH. simpl. lia.
Qed.



Lemma sha_round_length (st : list Z) (kw : Z * Z) :
  List.length (sha_round st kw) = List.length st.
Proof.
  unfold sha_round.
  destruct st as [|a [|b [|c [|d [|e [|f [|g [|h [|i st]]]]]]]]]; reflexivity.
Qed.

Lemma sha_block_length (st block : list Z) :
  List.length (sha_block st block) = List.length st.
Proof.
  unfold sha_block. rewrite length_map, length_combine.
  assert (H : forall kws st0, List.length (fold_left sha_round kws st0) = List.length st0).
  { induction kws as [|kw kws IH]; intros st0; simpl; [reflexivity |].
    now rewrite IH, sha_round_length. }
  rewrite H. apply Nat.min_id.
Qed.

Lemma sha256_length (msg : list Z) : List.length (sha256 msg) = 32%nat.
Proof.
  unfold sha256.
  assert (H : forall blocks st, List.length (fold_left sha_block blocks st) = List.length st).
  { induction blocks as [|b blocks IH]; intros st; simpl; [reflexivity |].
    now rewrite IH, sha_block_length. }
  specialize (H (chunks (List.length (sha_pad msg)) 64 (sha_pad msg)) H256).
  destruct (fold_left sha_block _ H256) as [|a [|b [|c [|d [|e [|f [|g [|h [|i st]]]]]]]]];
    try discriminate H.
  cbn [flat_map]. rewrite !length_app, !be_bytes_length. reflexivity.
Qed.








(** RFC 4231, test case 2, and the digest of a request body. *)
Example hmac_rfc4231_case2 :
  hmac_hexdigest "Jefe" "what do ya want for nothing?"
  = "5bdcc146bf60754e6a042426089575c75a003f089d2739839dec58b964ec3843".
Proof. vm_compute. reflexivity. Qed.

Example sha256_abc :
  hexlify (sha256 (bytes_of_string "abc"))
  = "ba7816bf8f01cfea414140de5dae2223b00361a396177a9cb410ff61f20015ad".
Proof. vm_compute. reflexivity. Qed.

(** ** The format "%.8f" *)

Lemma fixed_digits_shape (w : nat) (r : Z) :
  0 <= r ->
  all_digits (fixed_digits w r) /\ String.length (fixed_digits w r) = w.
Proof.
  unfold all_digits. revert r. induction w as [|w IH]; intros r Hr; simpl; [auto |].
  destruct (IH (r / 10)) as [Hd Hl]; [apply Z.div_pos; lia |].
  rewrite forallb_sapp, slength_app, Hd, Hl. simpl.
  rewrite is_digit_char by (apply Z.mod_pos_bound; lia). split; [reflexivity | lia].
Qed.

Lemma fixed_digits_value (w : nat) (r : Z) :
  0 <= r -> horner 0 (fixed_digits w r) = r mod 10 ^ Z.of_nat w.
Proof.
  revert r. induction w as [|w IH]; intros r Hr.
  - simpl. now rewrite Z.mod_1_r.
  - cbn [fixed_digits]. rewrite horner_app, IH by (apply Z.div_pos; lia).
    simpl horner. rewrite digit_val_char by (apply Z.mod_pos_bound; lia).
    rewrite Nat2Z.inj_succ, Z.pow_succ_r by lia.
    rewrite Z.rem_mul_r by lia. lia.
Qed.

Lemma digit_not_minus (c : ascii) : is_digit c = true -> (N_of_ascii c =? 45)%N = false.
Proof.
  unfold is_digit. intros H. apply andb_prop in H as [H _].
  apply N.leb_le in H. apply N.eqb_neq. lia.
Qed.

Lemma round_half_even_bound (p q : Z) :
  0 < q -> 2 * Z.abs (round_half_even p q * q - p) <= q.
Proof.
  intros Hq. unfold round_half_even.
  pose proof (Z.div_mod p q ltac:(lia)) as E.
  pose proof (Z.mod_pos_bound p q Hq) as B.
  destruct (Z.compare_spec (2 * (p mod q)) q) as [C | C | C];
    [destruct (Z.even (p / q)) | |]; nia.
Qed.

Lemma scaled8_nonneg (m : positive) (e : Z) : 0 <= scaled8 m e.
Proof.
  unfold scaled8. destruct (Z.leb_spec 0 e).
  - pose proof (Z.pow_pos_nonneg 2 e). nia.
  - assert (Hq : 0 < 2 ^ (- e)) by (apply Z.pow_pos_nonneg; lia).
    unfold round_half_even.
    assert (0 <= Z.pos m * 10 ^ 8 / 2 ^ (- e)) by (apply Z.div_pos; lia).
    destruct (_ ?= _); [destruct (Z.even _) | |]; lia.
Qed.

Lemma fixed8_shape (neg : bool) (n : Z) :
  0 <= n -> fixed_point_shape 8 (fixed8 neg n) = true.
Proof.
  intros Hn. unfold fixed8, fixed_point_shape.
  assert (Hi : 0 <= n / 10 ^ 8) by (apply Z.div_pos; lia).
  destruct (str_of_nonneg_cons _ Hi) as (c & t & E & Hc).
  assert (Hr : 0 <= n mod 10 ^ 8) by (apply Z.mod_pos_bound; lia).
  destruct (fixed_digits_shape 8 _ Hr) as [Hd Hl].
  assert (Hs : span_digits (str_of_nonneg (n / 10 ^ 8) ++ "." ++ fixed_digits 8 (n mod 10 ^ 8))
               = (str_of_nonneg (n / 10 ^ 8), String (ascii_of_N 46) (fixed_digits 8 (n mod 10 ^ 8)))).
  { apply span_digits_app; [now apply str_of_nonneg_digits | reflexivity]. }
  assert (Hb : strip_sign (sign_text neg ++ str_of_nonneg (n / 10 ^ 8) ++ "."
                           ++ fixed_digits 8 (n mod 10 ^ 8))
               = str_of_nonneg (n / 10 ^ 8) ++ "." ++ fixed_digits 8 (n mod 10 ^ 8)).
  { destruct neg; [reflexivity |]. cbn [sign_text append]. rewrite E. cbn [append strip_sign].
    now rewrite digit_not_minus. }
  rewrite Hb, Hs, E.
  change (N_of_ascii (ascii_of_N 46) =? 46)%N with true.
  rewrite Hd, Hl. reflexivity.
Qed.

Lemma parse_unsigned_fixed (n : Z) :
  0 <= n ->
  parse_unsigned_decimal (str_of_nonneg (n / 10 ^ 8) ++ "." ++ fixed_digits 8 (n mod 10 ^ 8))
  = Some (Qmake n 100000000).
Proof.
  intros Hn. unfold parse_unsigned_decimal.
  assert (Hi : 0 <= n / 10 ^ 8) by (apply Z.div_pos; lia).
  destruct (str_of_nonneg_cons _ Hi) as (c & t & E & Hc).
  assert (Hr : 0 <= n mod 10 ^ 8 < 10 ^ 8) by (apply Z.mod_pos_bound; lia).
  destruct (fixed_digits_shape 8 (n mod 10 ^ 8)) as [Hd Hl]; [lia |].
  pose proof (fixed_digits_value 8 (n mod 10 ^ 8) ltac:(lia)) as Hv.
  pose proof (str_of_nonneg_value _ Hi) as Hiv.
  change ("." ++ fixed_digits 8 (n mod 10 ^ 8))
    with (String (ascii_of_N 46) (fixed_digits 8 (n mod 10 ^ 8))).
  rewrite span_digits_app by (try reflexivity; now apply str_of_nonneg_digits).
  rewrite E in *. change (N_of_ascii (ascii_of_N 46) =? 46)%N with true. cbv iota.
  pose proof (span_digits_app (fixed_digits 8 (n mod 10 ^ 8)) EmptyString Hd I) as Hs.
  rewrite sapp_nil_r in Hs. rewrite Hs.
  destruct (fixed_digits 8 (n mod 10 ^ 8)) as [|c' t'] eqn:Ef; [discriminate Hl |].
  rewrite Hl, Hiv, Hv. change (Z.of_nat 8) with 8.
  rewrite Z.mod_mod by lia. change (Z.to_pos (10 ^ 8)) with 100000000%positive.
  f_equal. f_equal. pose proof (Z.div_mod n (10 ^ 8) ltac:(lia)). lia.
Qed.

Lemma parse_fixed8 (neg : bool) (n : Z) :
  0 <= n ->
  parse_decimal (fixed8 neg n) = Some (Qmake (if neg then - n else n) 100000000).
Proof.
  intros Hn. unfold fixed8, parse_decimal.
  assert (Hi : 0 <= n / 10 ^ 8) by (apply Z.div_pos; lia).
  destruct (str_of_nonneg_cons _ Hi) as (c & t & E & Hc).
  pose proof (parse_unsigned_fixed n Hn) as Hp.
  destruct neg; cbn [sign_text append].
  - cbn [append] in Hp. change (N_of_ascii "-" =? 45)%N with true. cbv iota.
    rewrite Hp. reflexivity.
  - rewrite E in *. cbn [append] in *.
    rewrite digit_not_minus by assumption. exact Hp.
Qed.

(** The printed number is within half a unit of the eighth decimal of
    the exact value. *)
Lemma scaled8_close (m : positive) (e : Z) :
  let a := if 0 <=? e then Qmake (Zpos m * 2 ^ e) 1
           else Qmake (Zpos m) (Z.to_pos (2 ^ (- e))) in
  (Qabs (Qmake (scaled8 m e) 100000000 - a) <= 1 # 200000000)%Q.
Proof.
  cbv zeta. unfold scaled8. destruct (Z.leb_spec 0 e) as [He | He].
  - apply Qabs_Qle_condition. unfold Qle, Qminus, Qplus, Qopp. cbn [Qnum Qden].
    change (10 ^ 8) with 100000000. rewrite !Pos2Z.inj_mul.
    set (v := Z.pos m * 2 ^ e). lia.
  - assert (Hq : 0 < 2 ^ (- e)) by (apply Z.pow_pos_nonneg; lia).
    pose proof (round_half_even_bound (Z.pos m * 10 ^ 8) (2 ^ (- e)) Hq) as B.
    apply Qabs_Qle_condition. unfold Qle, Qminus, Qplus, Qopp. cbn [Qnum Qden].
    rewrite !Pos2Z.inj_mul, Z2Pos.id by assumption.
    change (10 ^ 8) with 100000000 in *.
    set (r := round_half_even (Z.pos m * 100000000) (2 ^ (- e))) in *.
    set (q := 2 ^ (- e)) in *. lia.
Qed.

Lemma format_8f_parse (x : spec_float) :
  is_finite x = true ->
  exists n : Z,
    parse_decimal (format_8f x) = Some (Qmake n 100000000)
    /\ (Qabs (Qmake n 100000000 - float_value x) <= 1 # 200000000)%Q.
Proof.
  destruct x as [s | s | | s m e]; intros Hf; try discriminate Hf.
  - exists 0. split; [destruct s; reflexivity | discriminate].
  - cbn [format_8f float_value].
    pose proof (scaled8_nonneg m e) as Hn.
    pose proof (scaled8_close m e) as Hc. cbv zeta in Hc.
    exists (if s then - scaled8 m e else scaled8 m e).
    split; [now apply parse_fixed8 |].
    destruct s; [| exact Hc].
    set (a := if 0 <=? e then _ else _) in *.
    change (- scaled8 m e # 100000000) with (- (scaled8 m e # 100000000))%Q.
    assert (E : (- (scaled8 m e # 100000000) - - a == - ((scaled8 m e # 100000000) - a))%Q) by ring.
    rewrite E, Qabs_opp. exact Hc.
Qed.

Lemma format_8f_shape (x : spec_float) :
  is_finite x = true -> fixed_point_shape 8 (format_8f x) = true.
Proof.
  destruct x as [s | s | | s m e]; intros Hf; try discriminate Hf; cbn [format_8f].
  - destruct s; reflexivity.
  - apply fixed8_shape, scaled8_nonneg.
Qed.

(** * The claims *)


(** A signed request, checked against the digest that Python computes
    for the key "secret" and this body. *)
Example signed_balance_request :
  sent (snd (get_balance trader quiet_world))
  = [mk_request "https://api.coinut.com"
       [("X-USER", "trader");
        ("X-SIGNATURE", "6ca50c93e13658f823a8c0b3305cde45395399c7fb7855f49f0fc8d55e9839fa")]
       (dumps (VDict [("request", VStr "user_balance"); ("nonce", VInt 1)]))
       5].
Proof. vm_compute. reflexivity. Qed.



(** The float literals of the examples are the binary64 numbers nearest
    to the decimals they are written as: within half a unit of the last
    place, which is [2^e / 2]. *)
Example f_1e_7_literal :
  binary64 f_1e_7 = true /\ 2 * Z.abs (0x1ad7f29abcaf48 * 10 ^ 7 - 2 ^ 76) <= 10 ^ 7.
Proof. split; [reflexivity | vm_compute; discriminate]. Qed.

Example f_0_013_literal :
  binary64 f_0_013 = true /\ 2 * Z.abs (7493989779944505 * 1000 - 13 * 2 ^ 59) <= 1000.
Proof. split; [reflexivity | vm_compute; discriminate]. Qed.

Example f_1e_9_literal :
  binary64 f_1e_9 = true /\ 2 * Z.abs (4835703278458517 * 10 ^ 9 - 2 ^ 82) <= 10 ^ 9.
Proof. split; [reflexivity | vm_compute; discriminate]. Qed.

Example format_8f_examples :
  format_8f f_1e_7 = "0.00000010"
  /\ format_8f f_0_013 = "0.01300000"
  /\ format_8f f_1_25 = "1.25000000"
  /\ format_8f (S754_infinity false) = "inf"
  /\ format_8f S754_nan = "nan"
  /\ fixed_point_shape 8 (format_8f (S754_infinity false)) = false.
Proof. repeat split; vm_compute; reflexivity. Qed.

(** C3, as stated, fails: the float 0.000000001 is formatted as
    "0.00000000", which denotes zero, not the input. *)
Lemma C3_counterexample :
  binary64 f_1e_9 = true
  /\ format_8f f_1e_9 = "0.00000000"
  /\ parse_decimal (format_8f f_1e_9) = Some (0 # 100000000)
  /\ ~ (0 # 100000000 == float_value f_1e_9)%Q.
Proof.
  split; [reflexivity |]. split; [vm_compute; reflexivity |].
  split; [vm_compute; reflexivity |].
  unfold Qeq. vm_compute. discriminate.
Qed.

(** C3, amended.  For every finite [qty] or [price] the formatted string
    is an optional sign, digits, a point and exactly 8 digits, never an
    exponent; the number it denotes is the input rounded to a multiple
    of 10^-8, so it differs from the input by at most 5e-9, and it is
    the input when the input is itself a multiple of 10^-8. *)
Theorem C3_format_8f_rounds (x : spec_float) :
  is_finite x = true ->
  fixed_point_shape 8 (format_8f x) = true
  /\ exists n : Z,
       parse_decimal (format_8f x) = Some (n # 100000000)
       /\ (Qabs ((n # 100000000) - float_value x) <= 1 # 200000000)%Q
       /\ (forall k : Z, (float_value x == k # 100000000)%Q ->
                         (n # 100000000 == float_value x)%Q).
Proof.
  intros Hf. split; [now apply format_8f_shape |].
  destruct (format_8f_parse x Hf) as (n & Hp & Hb).
  exists n. split; [exact Hp |]. split; [exact Hb |].
  intros k Hk. rewrite Hk in *.
  apply Qabs_Qle_condition in Hb. revert Hb.
  unfold Qeq, Qle, Qminus, Qplus, Qopp. cbn [Qnum Qden]. lia.
Qed.

Lemma C3_format_8f_rounds_witness :
  fixed_point_shape 8 (format_8f f_1_25) = true
  /\ exists n : Z,
       parse_decimal (format_8f f_1_25) = Some (n # 100000000)
       /\ (Qabs ((n # 100000000) - float_value f_1_25) <= 1 # 200000000)%Q
       /\ (n # 100000000 == float_value f_1_25)%Q.
Proof.
  destruct (C3_format_8f_rounds f_1_25 eq_refl) as (H1 & n & H2 & H3 & H4).
  split; [exact H1 |]. exists n. split; [exact H2 |]. split; [exact H3 |].
  apply (H4 125000000). vm_compute. reflexivity.
Defined.

(** ** [create_new_order] *)

Lemma create_new_order_result (self : CoinutAPI) (i : pyval) (s : string) (q : spec_float)
    (p : option spec_float) (c : pyval) (w : World) :
  fst (create_new_order self i s q p c w) = Return (List.length (heap w))
  /\ deref (List.length (heap w)) (snd (create_new_order self i s q p c w))
     = order_dict i s q p (chosen_id c w)
  /\ sent (snd (create_new_order self i s q p c w)) = sent w.
Proof.
  rewrite create_new_order_run. cbn [fst snd sent]. unfold deref. cbn [heap].
  now rewrite nth_middle.
Qed.

(** C4.  [create_new_order(1, "BUY", 0.0000001, 0.013)] returns a new
    dict that is exactly [inst_id: 1, side: "BUY", qty: "0.00000010",
    price: "0.01300000", client_ord_id: n] with [n] an integer of
    [1, 4294967290], and nothing is posted. *)
Theorem C4_create_new_order_example (self : CoinutAPI) (w : World) :
  let run := create_new_order self (VInt 1) "BUY" f_1e_7 (Some f_0_013) VNone w in
  exists (l : loc) (n : Z),
    fst run = Return l
    /\ l = List.length (heap w)
    /\ deref l (snd run)
       = [("inst_id", VInt 1); ("side", VStr "BUY"); ("qty", VStr "0.00000010");
          ("price", VStr "0.01300000"); ("client_ord_id", VInt n)]
    /\ 1 <= n <= 4294967290
    /\ sent (snd run) = sent w.
Proof.
  intros run.
  destruct (create_new_order_result self (VInt 1) "BUY" f_1e_7 (Some f_0_013) VNone w)
    as (Hr & Hd & Hs).
  exists (List.length (heap w)), (next_nonce w).
  split; [exact Hr |]. split; [reflexivity |].
  split; [| split; [apply next_nonce_range | exact Hs]].
  unfold run. rewrite Hd. unfold order_dict, chosen_id.
  destruct format_8f_examples as (-> & -> & _). reflexivity.
Qed.

(** C6.  The order's [client_ord_id] is the value supplied, whatever it
    is; when the argument is left out (it is then [None]) it is the
    result of [random.randint(1, 4294967290)], the range of the nonce. *)
Theorem C6_client_ord_id (self : CoinutAPI) (i : pyval) (s : string) (q : spec_float)
    (p : option spec_float) (c : pyval) (w : World) :
  let run := create_new_order self i s q p c w in
  let order := deref (List.length (heap w)) (snd run) in
  fst run = Return (List.length (heap w))
  /\ count_key "client_ord_id" order = 1%nat
  /\ match c with
     | VNone =>
         exists n : Z,
           dict_get "client_ord_id" order = Some (VInt n)
           /\ 1 <= n <= 4294967290
           /\ n = randint_of 1 4294967290 (entropy w (draws w))
     | supplied => dict_get "client_ord_id" order = Some supplied
     end.
Proof.
  intros run order.
  destruct (create_new_order_result self i s q p c w) as (Hr & Hd & _).
  split; [exact Hr |]. unfold order, run. rewrite Hd.
  assert (Hg : forall id, dict_get "client_ord_id" (order_dict i s q p id) = Some id)
    by (intros; destruct p; reflexivity).
  split; [eapply count_key_wf; [apply order_dict_wf | apply Hg] |].
  rewrite Hg. destruct c; try reflexivity.
  exists (next_nonce w). split; [reflexivity |].
  split; [apply next_nonce_range | reflexivity].
Qed.


(** ** [get_spot_instruments] *)

(** C5.  Let the reply to the instrument-list request be a JSON object
    with a field [SPOT].  Without a pair, [get_spot_instruments] returns
    the value of [SPOT] as it is.  With a pair, it returns the
    instrument's info found under that pair inside [SPOT]: the server
    lists it as the first element of the array stored under the pair. *)
Theorem C5_get_spot_instruments (self : CoinutAPI) (w : World) (resp : dict) (spot : pyval) :
  inst_list_response self w = Return (VDict resp) ->
  dict_get "SPOT" resp = Some spot ->
  fst (get_spot_instruments self None w) = Return spot
  /\ (forall (pair : string) (insts : dict) (info : pyval) (more : list pyval),
         spot = VDict insts ->
         dict_get pair insts = Some (VList (info :: more)) ->
         fst (get_spot_instruments self (Some pair) w) = Return info).
Proof.
  unfold inst_list_response, get_spot_instruments, bind, new_dict.
  intros Hresp Hspot.
  destruct (request self "inst_list" _ _) as [[v|e] w'] eqn:E;
    cbn [fst] in Hresp; [| discriminate Hresp].
  injection Hresp as ->. split.
  - unfold getitem. now rewrite Hspot.
  - intros pair insts info more -> Hpair.
    unfold getitem at 1. rewrite Hspot. unfold ret.
    unfold getitem. rewrite Hpair. reflexivity.
Qed.

Lemma C5_get_spot_instruments_witness :
  fst (get_spot_instruments anonymous None spot_world)
  = Return (VDict [("BTCUSDT", VList [VDict [("inst_id", VInt 1); ("base", VStr "BTC")]])])
  /\ fst (get_spot_instruments anonymous (Some "BTCUSDT") spot_world)
     = Return (VDict [("inst_id", VInt 1); ("base", VStr "BTC")]).
Proof.
  destruct (C5_get_spot_instruments anonymous spot_world spot_listing
              (VDict [("BTCUSDT", VList [VDict [("inst_id", VInt 1); ("base", VStr "BTC")]])])
              eq_refl eq_refl) as [H1 H2].
  split; [exact H1 |].
  exact (H2 "BTCUSDT" _ _ [] eq_refl eq_refl).
Defined.

(** ** No validation before the dispatch *)


Lemma order_dict_side (i : pyval) (s : string) (q : spec_float) (p : option spec_float)
    (id : pyval) : dict_get "side" (order_dict i s q p id) = Some (VStr s).
Proof. reflexivity. Qed.


(** An instance with more than a thousand ids. *)
Example cancel_orders_1001 (self : CoinutAPI) (w : World) :
  exists (rq : http_request) (d : dict) (entries : list pyval),
    sent (snd (cancel_orders self (VInt 1) (repeat (VInt 3355) 1001) w)) = (sent w ++ [rq])%list
    /\ json_loads (req_data rq) = Some (VDict d)
    /\ dict_get "entries" d = Some (VList entries)
    /\ List.length entries = 1001%nat.
Proof.
  unfold cancel_orders. rewrite fresh_request_run. cbv zeta. cbn [fst snd sent].
  eexists. eexists. eexists. split; [reflexivity |].
  split; [apply json_loads_dumps |]. split; [reflexivity |].
  now rewrite length_map, repeat_length.
Qed.

(** ** The dict that [request] writes into *)

Lemma request_deref (self : CoinutAPI) (api : string) (content : option loc) (w : World) :
  (target content < List.length (heap w))%nat ->
  deref (target content) (snd (request self api content w))
  = stamp api (next_nonce w) (deref (target content) w).
Proof.
  intros Hl. rewrite request_run. cbv zeta. cbn [snd]. unfold deref. cbn [heap].
  now apply nth_list_update_same.
Qed.

(** C9.  [request] writes the keys [request] and [nonce] into the very
    dict object it is given: after the call that object holds them, no
    new object was made and no other object changed.  When [content] is
    left out the object is the one default dict, the same at every
    call: a second call without [content] finds the keys that the first
    one left in it. *)
Theorem C9_request_mutates_content (self : CoinutAPI) (api : string)
    (content : option loc) (w : World) :
  (target content < List.length (heap w))%nat ->
  let l := target content in
  let w' := snd (request self api content w) in
  List.length (heap w') = List.length (heap w)
  /\ deref l w' = dict_set "nonce" (VInt (next_nonce w))
                    (dict_set "request" (VStr api) (deref l w))
  /\ dict_get "request" (deref l w') = Some (VStr api)
  /\ dict_get "nonce" (deref l w') = Some (VInt (next_nonce w))
  /\ (forall l' : loc, l' <> l -> deref l' w' = deref l' w)
  /\ match content with
     | Some given => l = given
     | None =>
         l = default_content
         /\ forall api2 : string,
              deref default_content (snd (request self api2 None w'))
              = stamp api2 (next_nonce w') (stamp api (next_nonce w) (deref default_content w))
     end.
Proof.
  intros Hl l w'.
  pose proof (request_deref self api content w Hl) as Hd. fold l w' in Hd.
  assert (Hlen : List.length (heap w') = List.length (heap w)).
  { unfold w'. rewrite request_run. cbv zeta. cbn [snd heap]. apply list_update_length. }
  split; [exact Hlen |]. split; [exact Hd |].
  split; [rewrite Hd; apply stamp_request |].
  split; [rewrite Hd; apply stamp_nonce |].
  split.
  - intros l' Hne. unfold w'. rewrite request_run. cbv zeta. cbn [snd]. unfold deref.
    cbn [heap]. now apply nth_list_update_other.
  - destruct content as [given|]; [reflexivity |].
    split; [reflexivity |]. intros api2.
    pose proof (request_deref self api2 None w') as H2.
    rewrite Hlen in H2. specialize (H2 Hl).
    unfold l in Hd. cbn [target] in H2, Hd. now rewrite H2, Hd.
Qed.

Lemma C9_request_mutates_content_witness :
  List.length (heap (snd (request anonymous "user_balance" None quiet_world))) = 1%nat
  /\ deref default_content (snd (request anonymous "user_balance" None quiet_world))
     = [("request", VStr "user_balance"); ("nonce", VInt 1)]
  /\ deref default_content
       (snd (request anonymous "inst_list" None
               (snd (request anonymous "user_balance" None quiet_world))))
     = [("request", VStr "inst_list"); ("nonce", VInt 2)]
  /\ deref 1%nat (snd (request anonymous "user_balance" None quiet_world))
     = deref 1%nat quiet_world.
Proof.
  destruct (C9_request_mutates_content anonymous "user_balance" None quiet_world)
    as (H1 & H2 & _ & _ & H5 & _ & H6); [cbn; unfold default_content; lia |].
  split; [exact H1 |]. split; [exact H2 |]. split; [exact (H6 "inst_list") |].
  apply H5. discriminate.
Defined.



(** * Further properties of the client *)

(** ** What each call returns *)

Lemma fresh_request_bind {B : Type} (self : CoinutAPI) (api : string) (d : dict)
    (k : pyval -> M B) (w : World) :
  (c <- new_dict d ;; r <- request self api (Some c) ;; k r) w
  = match (c <- new_dict d ;; request self api (Some c)) w with
    | (Return v, w') => k v w'
    | (Raise e, w') => (Raise e, w')
    end.
Proof.
  unfold bind, new_dict. destruct (request self api _ _) as [[v|e] w']; reflexivity.
Qed.

Lemma get_balance_run (self : CoinutAPI) (w : World) :
  world_ok w ->
  get_balance self w
  = (outcome_of_reply (call_reply self GetBalance w),
     mk_world (list_update default_content
                 (stamp "user_balance" (call_nonce GetBalance w)) (heap w))
              (entropy w) (S (draws w)) (sent w ++ call_posts self GetBalance w)
              (server w)).
Proof.
  intros [Hne _]. unfold get_balance. rewrite request_run. cbv zeta. cbn [target].
  unfold call_reply, call_posts, call_dict, call_nonce, nonce_index, api_name, deref, next_nonce.
  rewrite nth_list_update_same; [reflexivity |].
  unfold default_content. destruct (heap w); [contradiction | simpl; lia].
Qed.


Lemma get_spot_instruments_fst (self : CoinutAPI) (pair : option string) (w : World) :
  fst (get_spot_instruments self pair w)
  = match inst_list_response self w with
    | Return result =>
        match pair with
        | Some p =>
            fst ((spot <- getitem result "SPOT" ;; insts <- getitem spot p ;; getitem0 insts)
                   (snd (get_spot_instruments self pair w)))
        | None => fst (getitem result "SPOT" (snd (get_spot_instruments self pair w)))
        end
    | Raise e => Raise e
    end.
Proof.
  rewrite get_spot_instruments_world. unfold inst_list_response, get_spot_instruments.
  rewrite fresh_request_bind.
  destruct ((c <- new_dict _ ;; request self "inst_list" (Some c)) w) as [[v|e] w'];
    cbn [fst snd]; [| reflexivity].
  destruct pair; reflexivity.
Qed.









(** ** [get_spot_instruments] and [get_spot_inst_id] on other replies *)

(** X4.  When the reply is an object without the field [SPOT],
    [get_spot_instruments] raises [KeyError], with or without a pair,
    and so does [get_spot_inst_id]. *)
Theorem X4_missing_spot_key_error (self : CoinutAPI) (w : World) (resp : dict) :
  inst_list_response self w = Return (VDict resp) ->
  dict_get "SPOT" resp = None ->
  (forall pair, fst (get_spot_instruments self pair w) = Raise KeyError)
  /\ (forall pair, fst (get_spot_inst_id self pair w) = Raise KeyError).
Proof.
  intros Hresp Hspot.
  assert (H : forall pair, fst (get_spot_instruments self pair w) = Raise KeyError).
  { intros pair. rewrite get_spot_instruments_fst, Hresp.
    destruct pair; unfold bind, getitem; rewrite Hspot; reflexivity. }
  split; [exact H |].
  intros pair. unfold get_spot_inst_id, bind. specialize (H (Some pair)).
  destruct (get_spot_instruments self (Some pair) w) as [[v|e] w']; cbn [fst] in *; congruence.
Qed.

Lemma X4_missing_spot_key_error_witness :
  fst (get_spot_instruments anonymous None error_world) = Raise KeyError
  /\ fst (get_spot_inst_id anonymous "BTCUSDT" error_world) = Raise KeyError.
Proof.
  destruct (X4_missing_spot_key_error anonymous error_world
              [("status", VList [VStr "ERROR"])] eq_refl eq_refl) as [H1 H2].
  split; [apply H1 | apply H2].
Defined.

(** X5.  A pair that the reply does not list makes
    [get_spot_instruments] and [get_spot_inst_id] raise [KeyError]; a
    pair listed with an empty array makes them raise [IndexError].  The
    empty string is a pair like any other. *)
Theorem X5_unknown_pair (self : CoinutAPI) (w : World) (resp spot : dict) (pair : string) :
  inst_list_response self w = Return (VDict resp) ->
  dict_get "SPOT" resp = Some (VDict spot) ->
  match dict_get pair spot with
  | None =>
      fst (get_spot_instruments self (Some pair) w) = Raise KeyError
      /\ fst (get_spot_inst_id self pair w) = Raise KeyError
  | Some (VList []) =>
      fst (get_spot_instruments self (Some pair) w) = Raise IndexError
      /\ fst (get_spot_inst_id self pair w) = Raise IndexError
  | Some _ => True
  end.
Proof.
  intros Hresp Hspot.
  assert (H : forall e,
             fst (get_spot_instruments self (Some pair) w) = Raise e ->
             fst (get_spot_inst_id self pair w) = Raise e).
  { intros e He. unfold get_spot_inst_id, bind.
    destruct (get_spot_instruments self (Some pair) w) as [[v|e'] w']; cbn [fst] in *; congruence. }
  pose proof (get_spot_instruments_fst self (Some pair) w) as Hf. rewrite Hresp in Hf.
  unfold bind, getitem in Hf. rewrite Hspot in Hf. unfold ret in Hf.
  destruct (dict_get pair spot) as [[ | | | | [|x l] | ]|] eqn:E; try exact I;
    cbn in Hf; split; try exact Hf; apply H; exact Hf.
Qed.

Lemma X5_unknown_pair_witness :
  (fst (get_spot_instruments anonymous (Some "") spot_world) = Raise KeyError
   /\ fst (get_spot_inst_id anonymous "" spot_world) = Raise KeyError)
  /\ (fst (get_spot_instruments anonymous (Some "BTCUSDT") empty_pair_world) = Raise IndexError
      /\ fst (get_spot_inst_id anonymous "BTCUSDT" empty_pair_world) = Raise IndexError).
Proof.
  split.
  - exact (X5_unknown_pair anonymous spot_world spot_listing
             [("BTCUSDT", VList [VDict [("inst_id", VInt 1); ("base", VStr "BTC")]])]
             "" eq_refl eq_refl).
  - exact (X5_unknown_pair anonymous empty_pair_world
             [("SPOT", VDict [("BTCUSDT", VList [])])] [("BTCUSDT", VList [])]
             "BTCUSDT" eq_refl eq_refl).
Defined.

(** X6.  [get_spot_inst_id] returns the field [inst_id] of the
    instrument that [get_spot_instruments] finds for the pair, and
    raises [KeyError] when the instrument has no such field. *)
Theorem X6_get_spot_inst_id (self : CoinutAPI) (w : World) (resp spot info : dict)
    (pair : string) (more : list pyval) :
  inst_list_response self w = Return (VDict resp) ->
  dict_get "SPOT" resp = Some (VDict spot) ->
  dict_get pair spot = Some (VList (VDict info :: more)) ->
  fst (get_spot_inst_id self pair w)
  = match dict_get "inst_id" info with
    | Some id => Return id
    | None => Raise KeyError
    end.
Proof.
  intros Hresp Hspot Hpair.
  pose proof (get_spot_instruments_fst self (Some pair) w) as Hf. rewrite Hresp in Hf.
  unfold get_spot_inst_id. unfold bind at 1.
  remember (get_spot_instruments self (Some pair) w) as g eqn:Eg. clear Eg.
  unfold bind, getitem in Hf. rewrite Hspot in Hf. unfold ret in Hf. rewrite Hpair in Hf.
  cbn in Hf. destruct g as [[v|e] w']; cbn [fst] in *; [| discriminate Hf].
  injection Hf as ->. unfold getitem. destruct (dict_get "inst_id" info); reflexivity.
Qed.

Lemma X6_get_spot_inst_id_witness :
  fst (get_spot_inst_id anonymous "BTCUSDT" spot_world) = Return (VInt 1).
Proof.
  exact (X6_get_spot_inst_id anonymous spot_world spot_listing
           [("BTCUSDT", VList [VDict [("inst_id", VInt 1); ("base", VStr "BTC")]])]
           [("inst_id", VInt 1); ("base", VStr "BTC")] "BTCUSDT" [] eq_refl eq_refl eq_refl).
Defined.

(** ** [get_open_orders] *)

(** X7.  [get_open_orders] posts the instrument id as it was given and
    returns the field [orders] of the reply; it raises [KeyError] when
    the reply has no such field, [TypeError] when the reply is JSON but
    not an object, and the exception of the reply otherwise. *)
Theorem X7_get_open_orders (self : CoinutAPI) (inst_id : pyval) (w : World) :
  exists (rq : http_request) (d : dict),
    sent (snd (get_open_orders self inst_id w)) = (sent w ++ [rq])%list
    /\ json_loads (req_data rq) = Some (VDict d)
    /\ dict_get "inst_id" d = Some inst_id
    /\ dict_get "request" d = Some (VStr "user_open_orders")
    /\ fst (get_open_orders self inst_id w)
       = match server w (sent w ++ [rq])%list with
         | ReplyJson (VDict r) =>
             match dict_get "orders" r with
             | Some orders => Return orders
             | None => Raise KeyError
             end
         | ReplyJson _ => Raise TypeError
         | ReplyGarbage => Raise ValueError
         | NoReply => Raise RequestException
         end.
Proof.
  unfold get_open_orders. rewrite fresh_request_bind, fresh_request_run. cbv zeta.
  exists (posted self (dumps (VDict (stamp "user_open_orders" (next_nonce w)
                                       [("inst_id", inst_id)])))),
         (stamp "user_open_orders" (next_nonce w) [("inst_id", inst_id)]).
  split; [| split; [apply json_loads_dumps | split; [| split; [apply stamp_request |]]]].
  - destruct (server w _) as [v| |]; cbn [outcome_of_reply]; try reflexivity.
    rewrite getitem_world. reflexivity.
  - rewrite stamp_other by discriminate. reflexivity.
  - destruct (server w _) as [v| |]; cbn [outcome_of_reply]; try reflexivity.
    destruct v; try reflexivity. unfold getitem.
    destruct (dict_get "orders" d); reflexivity.
Qed.

(** ** What a sequence of calls keeps *)

Lemma run_calls_app (self : CoinutAPI) (cs : list call) (c : call) (w : World) :
  run_calls self (cs ++ [c])%list w = snd (run_call self c (run_calls self cs w)).
Proof.
  revert w. induction cs as [|c' cs IH]; intros w; simpl; [reflexivity | apply IH].
Qed.

(** A property of all the requests that [requests.post] can send holds
    of the whole log. *)
Lemma sent_invariant (self : CoinutAPI) (P : http_request -> Prop) :
  (forall d : dict, P (posted self (dumps (VDict d)))) ->
  forall (cs : list call) (w : World),
    world_ok w -> Forall P (sent w) -> Forall P (sent (run_calls self cs w)).
Proof.
  intros HP. induction cs as [|c cs IH]; intros w Hok HF; simpl; [exact HF |].
  apply IH; [now apply run_call_ok |].
  rewrite run_call_sent by assumption. apply Forall_app. split; [exact HF |].
  unfold call_posts. destruct (api_name c); constructor; [apply HP | constructor].
Qed.

(** X8.  Whatever the calls made on a client, every request it has
    posted went to the one fixed URL with a timeout of 5 seconds, and
    the requests are either all signed with the client's user name and
    key or, when a credential is missing, all without headers. *)
Theorem X8_log_url_timeout_headers (self : CoinutAPI) (rnd : nat -> Z)
    (srv : list http_request -> reply) (cs : list call) :
  Forall (fun rq =>
            req_url rq = "https://api.coinut.com"
            /\ req_timeout rq = 5
            /\ match user self, api_key self with
               | Some u, Some key =>
                   req_headers rq
                   = [("X-USER", u); ("X-SIGNATURE", hmac_hexdigest key (req_data rq))]
               | _, _ => req_headers rq = []
               end)
         (sent (after self rnd srv cs)).
Proof.
  apply sent_invariant; [| apply initial_world_ok | constructor].
  intros d. unfold posted, auth_headers. cbn [req_url req_timeout req_headers req_data].
  repeat split. destruct (user self), (api_key self); reflexivity.
Qed.


(** The default dict of [request] under the public operations. *)
Lemma default_dict_step (self : CoinutAPI) (c : call) (w : World) :
  world_ok w ->
  deref default_content (snd (run_call self c w))
  = match c with
    | GetBalance => stamp "user_balance" (call_nonce c w) (deref default_content w)
    | _ => deref default_content w
    end.
Proof.
  intros Hok. rewrite run_call_world by assumption. destruct Hok as [Hne _].
  unfold deref, default_content.
  destruct c; cbn [heap]; destruct (heap w); try contradiction; reflexivity.
Qed.

(** X10.  The shared default dict of [request] never collects anything
    but the two keys of [get_balance]: after any sequence of public
    calls it is empty (no [get_balance] yet) or holds exactly [request]
    = "user_balance" and a nonce of the range.  So [get_balance] always
    posts a body with exactly these two fields. *)
Theorem X10_default_dict_invariant (self : CoinutAPI) (rnd : nat -> Z)
    (srv : list http_request -> reply) (cs : list call) :
  let w := after self rnd srv cs in
  (deref default_content w = []
   \/ exists n : Z,
        1 <= n <= 4294967290
        /\ deref default_content w = [("request", VStr "user_balance"); ("nonce", VInt n)])
  /\ exists (rq : http_request) (n : Z),
       sent (snd (get_balance self w)) = (sent w ++ [rq])%list
       /\ json_loads (req_data rq)
          = Some (VDict [("request", VStr "user_balance"); ("nonce", VInt n)])
       /\ 1 <= n <= 4294967290.
Proof.
  intros w.
  assert (Hok : world_ok w) by (apply run_calls_ok, initial_world_ok).
  assert (Hinv : deref default_content w = []
                 \/ exists n : Z,
                      1 <= n <= 4294967290
                      /\ deref default_content w
                         = [("request", VStr "user_balance"); ("nonce", VInt n)]).
  { unfold w, after. clear w Hok.
    induction cs as [|c cs IH] using rev_ind; [left; reflexivity |].
    rewrite run_calls_app.
    rewrite default_dict_step by (apply run_calls_ok, initial_world_ok).
    destruct c; try exact IH.
    right. exists (call_nonce GetBalance (run_calls self cs (initial_world rnd srv))).
    split; [apply randint_of_range; unfold nonce_max; lia |].
    destruct IH as [-> | (n & _ & ->)]; reflexivity. }
  split; [exact Hinv |].
  rewrite get_balance_run by assumption. cbn [snd sent].
  unfold call_posts. cbn [api_name call_dict].
  exists (posted self (dumps (VDict (stamp "user_balance" (call_nonce GetBalance w)
                                       (deref default_content w))))),
         (call_nonce GetBalance w).
  split; [reflexivity |].
  split; [| apply randint_of_range; unfold nonce_max; lia].
  cbn [posted req_data]. rewrite json_loads_dumps.
  destruct Hinv as [-> | (n & _ & ->)]; reflexivity.
Qed.

(** X11.  No public operation touches a dict that already exists, the
    hidden default dict apart: an order returned by [create_new_order]
    stays as it is through every later call, and objects are only ever
    added. *)
Theorem X11_existing_dicts_untouched (self : CoinutAPI) (c : call) (w : World) (l : loc) :
  world_ok w ->
  (default_content < l < List.length (heap w))%nat ->
  deref l (snd (run_call self c w)) = deref l w
  /\ (List.length (heap w) <= List.length (heap (snd (run_call self c w))))%nat.
Proof.
  intros Hok Hl. rewrite run_call_world by assumption.
  unfold deref, default_content in *.
  destruct c; cbn [heap]; rewrite ?length_app, ?list_update_length;
    (split; [| simpl; lia]); try (apply app_nth1; lia).
  apply nth_list_update_other. lia.
Qed.

Lemma X11_existing_dicts_untouched_witness :
  deref 1%nat (snd (run_call anonymous (SubmitNewOrders []) forged_world))
  = [("request", VStr "withdraw"); ("amount", VInt 5); ("nonce", VInt 7)]
  /\ (2 <= List.length (heap (snd (run_call anonymous (SubmitNewOrders []) forged_world))))%nat.
Proof.
  apply (X11_existing_dicts_untouched anonymous (SubmitNewOrders []) forged_world 1%nat).
  - split; [discriminate |].
    repeat constructor; simpl; intuition discriminate.
  - unfold default_content. simpl. lia.
Defined.

(** X12.  Two orders built one after the other are two objects: the
    references differ and building the second leaves the first as it
    was. *)
Theorem X12_orders_are_distinct_objects (self : CoinutAPI) (w : World)
    (i1 i2 : pyval) (s1 s2 : string) (q1 q2 : spec_float) (p1 p2 : option spec_float)
    (c1 c2 : pyval) :
  let run1 := create_new_order self i1 s1 q1 p1 c1 w in
  let run2 := create_new_order self i2 s2 q2 p2 c2 (snd run1) in
  exists l1 l2 : loc,
    fst run1 = Return l1 /\ fst run2 = Return l2
    /\ l1 <> l2
    /\ deref l1 (snd run2) = deref l1 (snd run1)
    /\ dict_get "side" (deref l1 (snd run2)) = Some (VStr s1)
    /\ dict_get "side" (deref l2 (snd run2)) = Some (VStr s2).
Proof.
  intros run1 run2. unfold run2, run1. rewrite !create_new_order_run.
  cbn [fst snd heap]. rewrite length_app. cbn [List.length].
  exists (List.length (heap w)), (List.length (heap w) + 1)%nat.
  split; [reflexivity |]. split; [reflexivity |]. split; [lia |].
  unfold deref. cbn [heap].
  assert (E1 : forall (x y : dict),
             nth (List.length (heap w)) ((heap w ++ [x]) ++ [y]) [] = x).
  { intros. rewrite app_nth1 by (rewrite length_app; simpl; lia). apply nth_middle. }
  assert (E2 : forall (x y : dict),
             nth (List.length (heap w) + 1) ((heap w ++ [x]) ++ [y]) [] = y).
  { intros. replace (List.length (heap w) + 1)%nat with (List.length (heap w ++ [x]))
      by (rewrite length_app; reflexivity). apply nth_middle. }
  rewrite E1, E2, nth_middle. repeat split; apply order_dict_side.
Qed.


(** ** The serialised body *)














(** ** The bodies of the operations *)

(** X17.  The operations with fixed parameters post exactly their
    parameters, then [request] and [nonce], and nothing else. *)
Theorem X17_exact_bodies (self : CoinutAPI) (w : World) (inst_id order_id : pyval)
    (pair : option string) :
  let n := randint_of 1 4294967290 (entropy w (draws w)) in
  let body_of (m : M pyval) := map (fun rq => json_loads (req_data rq))
                                   (skipn (List.length (sent w)) (sent (snd (m w)))) in
  body_of (get_inst_tick self inst_id)
  = [Some (VDict [("inst_id", inst_id); ("request", VStr "inst_tick"); ("nonce", VInt n)])]
  /\ body_of (get_orderbook self inst_id)
     = [Some (VDict [("inst_id", inst_id); ("request", VStr "inst_order_book");
                     ("nonce", VInt n)])]
  /\ body_of (cancel_order self inst_id order_id)
     = [Some (VDict [("inst_id", inst_id); ("order_id", order_id);
                     ("request", VStr "cancel_order"); ("nonce", VInt n)])]
  /\ body_of (get_spot_instruments self pair)
     = [Some (VDict [("sec_type", VStr "SPOT"); ("request", VStr "inst_list");
                     ("nonce", VInt n)])].
Proof.
  intros n body_of. unfold body_of.
  assert (Hskip : forall (l : list http_request) x, skipn (List.length l) (l ++ [x]) = [x]).
  { intros l x. induction l; simpl; auto. }
  rewrite get_spot_instruments_world.
  unfold get_inst_tick, get_orderbook, cancel_order. rewrite !fresh_request_run.
  cbv zeta. cbn [snd sent]. rewrite !Hskip. cbn [map posted req_data].
  rewrite !json_loads_dumps. repeat split.
Qed.


(** ** Quantities that are not numbers *)

(** X19.  [create_new_order] does not reject a quantity that is
    infinite or not a number: the order is built, and its [qty] is the
    text inf, -inf or nan, which is no decimal numeral. *)
Theorem X19_non_finite_qty (self : CoinutAPI) (i : pyval) (s : string) (q : spec_float)
    (p : option spec_float) (c : pyval) (w : World) :
  is_finite q = false ->
  exists (l : loc) (text : string),
    fst (create_new_order self i s q p c w) = Return l
    /\ dict_get "qty" (deref l (snd (create_new_order self i s q p c w))) = Some (VStr text)
    /\ (text = "inf" \/ text = "-inf" \/ text = "nan")
    /\ fixed_point_shape 8 text = false
    /\ parse_decimal text = None.
Proof.
  intros Hq. destruct (create_new_order_result self i s q p c w) as (Hr & Hd & _).
  exists (List.length (heap w)), (format_8f q).
  split; [exact Hr |]. split; [rewrite Hd; reflexivity |].
  destruct q as [sg | [|] | | sg m e]; try discriminate Hq; cbn [format_8f];
    repeat split; auto.
Qed.

Lemma X19_non_finite_qty_witness :
  exists (l : loc) (text : string),
    fst (create_new_order anonymous (VInt 1) "BUY" S754_nan None VNone quiet_world) = Return l
    /\ dict_get "qty"
         (deref l (snd (create_new_order anonymous (VInt 1) "BUY" S754_nan None VNone
                          quiet_world)))
       = Some (VStr text)
    /\ (text = "inf" \/ text = "-inf" \/ text = "nan")
    /\ fixed_point_shape 8 text = false
    /\ parse_decimal text = None.
Proof.
  apply (X19_non_finite_qty anonymous (VInt 1) "BUY" S754_nan None VNone quiet_world).
  reflexivity.
Defined.

(** ** The key of the signature *)

(** X20.  An API key longer than the 64-byte block of SHA-256 signs as
    its own SHA-256 digest does: [hmac] hashes such a key first. *)
Theorem X20_long_key_is_hashed (key msg : list Z) :
  (64 < List.length key)%nat ->
  hmac_sha256 key msg = hmac_sha256 (sha256 key) msg.
Proof.
  intros Hlen. unfold hmac_sha256, hmac_key, blocksize.
  rewrite sha256_length.
  destruct (Nat.ltb_spec 64 (List.length key)) as [_ | H]; [| lia].
  change (Nat.ltb 64 32) with false. cbv iota. rewrite sha256_length. reflexivity.
Qed.

Lemma X20_long_key_is_hashed_witness :
  hmac_sha256 (repeat 170 65) (bytes_of_string "{}")
  = hmac_sha256 (sha256 (repeat 170 65)) (bytes_of_string "{}").
Proof.
  apply (X20_long_key_is_hashed (repeat 170 65) (bytes_of_string "{}")).
  simpl. lia.
Defined.

(** ** The keys of the dicts *)

Lemma dict_set_keys_present (k : string) (v : pyval) (d : dict) :
  In k (dict_keys d) -> dict_keys (dict_set k v d) = dict_keys d.
Proof.
  induction d as [|[k0 v0] d IH]; simpl; [tauto |].
  intros Hin. destruct (String.eqb_spec k k0); simpl; [now subst |].
  f_equal. apply IH. destruct Hin; [congruence | assumption].
Qed.

Lemma dict_set_keys_new (k : string) (v : pyval) (d : dict) :
  ~ In k (dict_keys d) -> dict_keys (dict_set k v d) = (dict_keys d ++ [k])%list.
Proof.
  induction d as [|[k0 v0] d IH]; simpl; [reflexivity |].
  intros Hnin. destruct (String.eqb_spec k k0); simpl; [subst; tauto |].
  f_equal. apply IH. tauto.
Qed.

Lemma dict_set_key_in (k : string) (v : pyval) (d : dict) :
  In k (dict_keys (dict_set k v d)).
Proof.
  induction d as [|[k0 v0] d IH]; simpl; [auto |].
  destruct (String.eqb_spec k k0); simpl; auto.
Qed.

Lemma dict_set_keeps_keys (k k' : string) (v : pyval) (d : dict) :
  In k (dict_keys d) -> In k (dict_keys (dict_set k' v d)).
Proof.
  induction d as [|[k0 v0] d IH]; simpl; [tauto |].
  intros Hin. destruct (String.eqb_spec k' k0); simpl; destruct Hin; subst; auto.
Qed.


(** X22.  A dict that is passed to [request] again does not grow: the
    first call adds the keys [request] and [nonce] (where they are
    missing), every later call on the same dict overwrites them and
    leaves the keys as they are. *)
Theorem X22_request_twice_same_keys (self : CoinutAPI) (api1 api2 : string) (l : loc)
    (w : World) :
  (l < List.length (heap w))%nat ->
  let w1 := snd (request self api1 (Some l) w) in
  let w2 := snd (request self api2 (Some l) w1) in
  dict_keys (deref l w2) = dict_keys (deref l w1)
  /\ In "request" (dict_keys (deref l w1))
  /\ In "nonce" (dict_keys (deref l w1))
  /\ dict_get "request" (deref l w2) = Some (VStr api2).
Proof.
  intros Hl w1 w2.
  pose proof (request_deref self api1 (Some l) w Hl) as D1. cbn [target] in D1. fold w1 in D1.
  assert (Hl1 : (l < List.length (heap w1))%nat).
  { unfold w1. rewrite request_run. cbv zeta. cbn [snd heap]. now rewrite list_update_length. }
  pose proof (request_deref self api2 (Some l) w1 Hl1) as D2. cbn [target] in D2. fold w2 in D2.
  assert (Hr : In "request" (dict_keys (deref l w1))).
  { rewrite D1. unfold stamp. apply dict_set_keeps_keys, dict_set_key_in. }
  assert (Hn : In "nonce" (dict_keys (deref l w1))).
  { rewrite D1. unfold stamp. apply dict_set_key_in. }
  split; [| split; [exact Hr | split; [exact Hn | rewrite D2; apply stamp_request]]].
  rewrite D2. unfold stamp.
  rewrite dict_set_keys_present by now apply dict_set_keeps_keys.
  now apply dict_set_keys_present.
Qed.

Lemma X22_request_twice_same_keys_witness :
  dict_keys (deref 1%nat (snd (request anonymous "cancel_order" (Some 1%nat)
                                 (snd (request anonymous "new_order" (Some 1%nat)
                                         forged_world)))))
  = dict_keys (deref 1%nat (snd (request anonymous "new_order" (Some 1%nat) forged_world)))
  /\ In "request" (dict_keys (deref 1%nat (snd (request anonymous "new_order" (Some 1%nat)
                                                  forged_world))))
  /\ In "nonce" (dict_keys (deref 1%nat (snd (request anonymous "new_order" (Some 1%nat)
                                                forged_world))))
  /\ dict_get "request"
       (deref 1%nat (snd (request anonymous "cancel_order" (Some 1%nat)
                            (snd (request anonymous "new_order" (Some 1%nat) forged_world)))))
     = Some (VStr "cancel_order").
Proof.
  apply (X22_request_twice_same_keys anonymous "new_order" "cancel_order" 1%nat forged_world).
  simpl. lia.
Defined.
